(** * binddict: type checking and flattening of nested dictionaries

    A shallow embedding of [bind] and [__bind] (src/__init__.py) together
    with the part of the Python 3 runtime they call: the constructors
    [str], [int], [float], [dict] and [list], [type], [len], and dictionary
    lookup.

    Conventions of the embedding.
    - A Python [str] is a Rocq [string] holding one code point below 256
      per character, so [len] is [String.length].
    - A Python [float] is an IEEE 754 binary64 datum ([spec_float] with
      precision 53 and maximal exponent 1024).
    - Objects are represented by their contents: two occurrences of a value
      are two objects, and [final_value = value] is the value itself.
    - The interpreter's recursion limit is not modelled.
    - The limit of 4300 digits on the conversions between [int] and [str]
      (the default of [sys.set_int_max_str_digits]) is part of the
      conversions of the data, lines 217-226, whose ValueError the code
      catches; the bounds of a schema and the values printed with an
      exception are taken to be below it.
    - Dictionaries that are iterated over (the data, the children of a schema
      node) keep their insertion order as association lists; the output of
      [bind], which is only written and looked up, is a [gmap]. *)

From Stdlib Require Import ZArith Ascii String List Bool.
From Stdlib Require Import SpecFloat DecimalString.
From stdpp Require Import base option list strings gmap.

Local Open Scope Z_scope.
Set Warnings "-register-all".

(** ** Python values *)

(** Hashable values: what can be a dictionary key. *)
Inductive atom :=
| ANone
| ABool (b : bool)
| AInt (z : Z)
| AFloat (f : spec_float)
| AStr (s : string).

Inductive pyvalue :=
| VNone
| VBool (b : bool)
| VInt (z : Z)
| VFloat (f : spec_float)
| VStr (s : string)
| VList (items : list pyvalue)
| VDict (items : list (atom * pyvalue)).

Definition value_of_atom (a : atom) : pyvalue :=
  match a with
  | ANone => VNone
  | ABool b => VBool b
  | AInt z => VInt z
  | AFloat f => VFloat f
  | AStr s => VStr s
  end.

(** [hash(v)] succeeds on atoms only; lists and dicts are unhashable. *)
Definition atom_of_value (v : pyvalue) : option atom :=
  match v with
  | VNone => Some ANone
  | VBool b => Some (ABool b)
  | VInt z => Some (AInt z)
  | VFloat f => Some (AFloat f)
  | VStr s => Some (AStr s)
  | VList _ | VDict _ => None
  end.

(** Type objects.  [Tother shown] stands for any object that is none of the
    seven types below (such as the string ['dict']); [shown] is what [str]
    prints for it. *)
Inductive pytype :=
| Tstr | Tint | Tfloat | Tdict | Tlist | Tbool | TNoneType
| Tother (shown : string).

(** [type(value)] *)
Definition type_of (v : pyvalue) : pytype :=
  match v with
  | VNone => TNoneType
  | VBool _ => Tbool
  | VInt _ => Tint
  | VFloat _ => Tfloat
  | VStr _ => Tstr
  | VList _ => Tlist
  | VDict _ => Tdict
  end.

(** [str(t)] for a type object. *)
Definition str_of_type (t : pytype) : string :=
  match t with
  | Tstr => "<class 'str'>"
  | Tint => "<class 'int'>"
  | Tfloat => "<class 'float'>"
  | Tdict => "<class 'dict'>"
  | Tlist => "<class 'list'>"
  | Tbool => "<class 'bool'>"
  | TNoneType => "<class 'NoneType'>"
  | Tother shown => shown
  end.

(** ** Exceptions *)

(** The four exception classes of the module (lines 1-109) with the fields
    their constructors store, and the built-in exceptions that the runtime
    can raise inside [bind]. *)
Inductive exn :=
| BindException (path : list string) (msg : string)
| InvalidTypeException (path : list string) (found_type expected_type : pytype)
    (value : pyvalue) (strict : bool)
| InvalidStringLengthException (path : list string) (value : pyvalue)
    (constraint : string)
| RequiredValueMissingException (path : list string) (key : string)
| KeyError (key : string)
| ValueError
| TypeError
| OverflowError.

(** Result of an expression that may raise. *)
Inductive res (A : Type) :=
| Ret (a : A)
| Raise (e : exn).
Arguments Ret {A} a.
Arguments Raise {A} e.

(** Membership in the class hierarchy rooted at [BindException]. *)
Definition is_BindException (e : exn) : bool :=
  match e with
  | BindException _ _ | InvalidTypeException _ _ _ _ _
  | InvalidStringLengthException _ _ _ | RequiredValueMissingException _ _ => true
  | KeyError _ | ValueError | TypeError | OverflowError => false
  end.

(** ** Text helpers *)

Definition code (c : ascii) : Z := Z.of_N (N_of_ascii c).

(** [str(z)] for an int. *)
Definition str_of_Z (z : Z) : string := NilZero.string_of_int (Z.to_int z).

(** Characters skipped around a numeric literal by [int] and [float]:
    the ASCII blanks tab, LF, VT, FF, CR and space, and the two blanks above
    127 that a one-byte code point can be (NEL and no-break space). *)
Definition is_space (c : ascii) : bool :=
  let n := code c in
  ((9 <=? n) && (n <=? 13)) || (n =? 32) || (n =? 133) || (n =? 160).

Definition is_digit (c : ascii) : bool :=
  let n := code c in (48 <=? n) && (n <=? 57).

Definition digit_val (c : ascii) : Z := code c - 48.

Fixpoint lstrip (l : list ascii) : list ascii :=
  match l with
  | c :: l' => if is_space c then lstrip l' else l
  | [] => []
  end.

Definition strip (l : list ascii) : list ascii :=
  rev (lstrip (rev (lstrip l))).

(** ** Numeric literals *)

(** [digits_tail l] reads what may follow a digit inside a run of digits:
    more digits, each optionally preceded by one underscore.  It returns the
    digits read and the rest of the input. *)
Fixpoint digits_tail (l : list ascii) : list ascii * list ascii :=
  match l with
  | [] => ([], [])
  | c :: l' =>
      if is_digit c then
        let '(ds, r) := digits_tail l' in (c :: ds, r)
      else if Ascii.eqb c "_" then
        match l' with
        | d :: l'' =>
            if is_digit d then
              let '(ds, r) := digits_tail l'' in (d :: ds, r)
            else ([], l)
        | [] => ([], l)
        end
      else ([], l)
  end.

(** A non-empty run of digits: digit (["_"] digit)*. *)
Definition digitpart (l : list ascii) : option (list ascii * list ascii) :=
  match l with
  | c :: l' =>
      if is_digit c then
        let '(ds, r) := digits_tail l' in Some (c :: ds, r)
      else None
  | [] => None
  end.

(** The most digits an int may have when it is read from or written to a
    string: [sys.get_int_max_str_digits()]. *)
Definition int_max_str_digits : Z := 4300.

Definition digits_value (ds : list ascii) : Z :=
  fold_left (fun acc c => 10 * acc + digit_val c) ds 0.

(** An optional sign; [true] stands for minus. *)
Definition sign (l : list ascii) : bool * list ascii :=
  match l with
  | c :: r =>
      if Ascii.eqb c "-" then (true, r)
      else if Ascii.eqb c "+" then (false, r)
      else (false, l)
  | [] => (false, l)
  end.

(** [int(s)] for a string, base 10: blanks, an optional sign, a run of
    digits, blanks; the digits, leading zeros included, may not be more than
    the limit.  [None] stands for ValueError. *)
Definition int_of_str (s : string) : option Z :=
  let '(neg, l) := sign (strip (list_ascii_of_string s)) in
  match digitpart l with
  | Some (ds, []) =>
      if int_max_str_digits <? Z.of_nat (length ds) then None
      else Some (if neg then - digits_value ds else digits_value ds)
  | _ => None
  end.

(** [int(f)] for a float: truncation towards zero. *)
Definition int_of_float (f : spec_float) : res Z :=
  match f with
  | S754_zero _ => Ret 0
  | S754_infinity _ => Raise OverflowError
  | S754_nan => Raise ValueError
  | S754_finite s m e =>
      let a := Z.shiftl (Zpos m) e in Ret (if s then - a else a)
  end.

(** [int(value)] *)
Definition py_int (v : pyvalue) : res Z :=
  match v with
  | VInt z => Ret z
  | VBool b => Ret (if b then 1 else 0)
  | VFloat f => int_of_float f
  | VStr s =>
      match int_of_str s with
      | Some z => Ret z
      | None => Raise ValueError
      end
  | VNone | VList _ | VDict _ => Raise TypeError
  end.

(** ** Floats *)

Definition prec : Z := 53.
Definition emax : Z := 1024.

(** [float(z)] for an int: the nearest binary64, ties to even; an int beyond
    the finite range raises OverflowError. *)
Definition float_of_Z (z : Z) : res spec_float :=
  match binary_normalize prec emax z 0 false with
  | S754_infinity _ => Raise OverflowError
  | f => Ret f
  end.

(** The binary64 nearest to [m * 10^e] (ties to even) for [0 <= m], with
    the sign [neg]; out of range it is an infinity, never an exception. *)
Definition float_of_decimal (neg : bool) (m e : Z) : spec_float :=
  if m =? 0 then S754_zero neg
  else if 0 <=? e then
    binary_normalize prec emax ((if neg then - m else m) * 10 ^ e) 0 false
  else
    let '(q, e', l) := SFdiv_core_binary prec emax m 0 (10 ^ (- e)) 0 in
    binary_round_aux prec emax neg q e' l.

Definition lower (c : ascii) : ascii :=
  let n := code c in
  if (65 <=? n) && (n <=? 90) then ascii_of_N (Z.to_N (n + 32)) else c.

(** The exponent of a float literal: nothing, or [e] or [E], an optional
    sign and a run of digits.  [None] when what follows the mantissa is
    neither. *)
Definition exponent (l : list ascii) : option Z :=
  match l with
  | [] => Some 0
  | c :: r =>
      if Ascii.eqb (lower c) "e" then
        let '(neg, r) := sign r in
        match digitpart r with
        | Some (ds, []) =>
            Some (if neg then - digits_value ds else digits_value ds)
        | _ => None
        end
      else None
  end.

(** The mantissa of a float literal, [digits ["." [digits]]] or
    ["." digits]: the digits before and after the point and the rest. *)
Definition mantissa (l : list ascii)
  : option (list ascii * list ascii * list ascii) :=
  match digitpart l with
  | Some (ip, r) =>
      match r with
      | c :: r' =>
          if Ascii.eqb c "." then
            match digitpart r' with
            | Some (fp, r'') => Some (ip, fp, r'')
            | None => Some (ip, [], r')
            end
          else Some (ip, [], r)
      | [] => Some (ip, [], [])
      end
  | None =>
      match l with
      | c :: r' =>
          if Ascii.eqb c "." then
            match digitpart r' with
            | Some (fp, r'') => Some ([], fp, r'')
            | None => None
            end
          else None
      | [] => None
      end
  end.

(** [float(s)] for a string: blanks, an optional sign, then [inf],
    [infinity] or [nan] in any case, or a decimal literal, blanks.
    [None] stands for ValueError. *)
Definition float_of_str (s : string) : option spec_float :=
  let '(neg, l) := sign (strip (list_ascii_of_string s)) in
  let word := string_of_list_ascii (map lower l) in
  if String.eqb word "inf" || String.eqb word "infinity" then
    Some (S754_infinity neg)
  else if String.eqb word "nan" then Some S754_nan
  else
    match mantissa l with
    | Some (ip, fp, r) =>
        match exponent r with
        | Some e =>
            Some (float_of_decimal neg (digits_value (ip ++ fp))
                    (e - Z.of_nat (length fp)))
        | None => None
        end
    | None => None
    end.

(** [float(value)] *)
Definition py_float (v : pyvalue) : res spec_float :=
  match v with
  | VFloat f => Ret f
  | VInt z => float_of_Z z
  | VBool b => float_of_Z (if b then 1 else 0)
  | VStr s =>
      match float_of_str s with
      | Some f => Ret f
      | None => Raise ValueError
      end
  | VNone | VList _ | VDict _ => Raise TypeError
  end.

(** ** [repr] and [str] *)

Definition ndigits (z : Z) : Z := Z.of_nat (String.length (str_of_Z z)).

(** The least [k' >= k] with [d <= n * 10^k'] (given enough fuel). *)
Fixpoint scale_up (fuel : nat) (n d k : Z) : Z :=
  match fuel with
  | O => k
  | S fuel' => if d <=? n * 10 ^ k then k else scale_up fuel' n d (k + 1)
  end.

(** The [p] with [10^p <= n/d < 10^(p+1)], for positive [n] and [d]. *)
Definition decimal_exponent (n d : Z) : Z :=
  if d <=? n then ndigits (n / d) - 1
  else - scale_up (Z.to_nat (Z.log2 d) + 1) n d 1.

Section ShortestDigits.
(** The positive float [m * 2^e], as the fraction [n/d]. *)
Variables (m : positive) (e : Z).

Let n : Z := if 0 <=? e then Zpos m * 2 ^ e else Zpos m.
Let d : Z := if 0 <=? e then 1 else 2 ^ (- e).

(** Does the decimal [z * 10^q] read back as this float? *)
Definition reads_back (z q : Z) : bool :=
  match float_of_decimal false z q with
  | S754_finite _ m' e' => Pos.eqb m' m && (e' =? e)
  | _ => false
  end.

(** The two decimals with [nd] significant digits that enclose the float,
    [lo * 10^q] and [(lo+1) * 10^q], and the one to print when [nd] digits
    are enough: of those that read back, the nearer, the even one on a
    tie. *)
Definition with_digits (nd : Z) : option (Z * Z) :=
  let q := decimal_exponent n d + 1 - nd in
  let num := if q <=? 0 then n * 10 ^ (- q) else n in
  let den := if q <=? 0 then d else d * 10 ^ q in
  let lo := num / den in
  let r := num mod den in
  let nearer :=
    match 2 * r ?= den with
    | Lt => lo
    | Gt => lo + 1
    | Eq => if Z.even lo then lo else lo + 1
    end in
  match reads_back lo q, reads_back (lo + 1) q with
  | true, true => Some (nearer, q)
  | true, false => Some (lo, q)
  | false, true => Some (lo + 1, q)
  | false, false => if nd =? 17 then Some (nearer, q) else None
  end.

(** The shortest digit string that reads back; 17 digits always do. *)
Fixpoint shortest (fuel : nat) (nd : Z) : Z * Z :=
  match fuel with
  | O => (Zpos m, 0)
  | S fuel' =>
      match with_digits nd with
      | Some r => r
      | None => shortest fuel' (nd + 1)
      end
  end.
End ShortestDigits.

(** Drop trailing zeros of the digits [z], raising the exponent [q]. *)
Fixpoint trim_zeros (fuel : nat) (z q : Z) : Z * Z :=
  match fuel with
  | O => (z, q)
  | S fuel' =>
      if (z mod 10 =? 0) && negb (z =? 0) then trim_zeros fuel' (z / 10) (q + 1)
      else (z, q)
  end.

Definition zeros (k : Z) : string :=
  string_of_list_ascii (repeat "0"%char (Z.to_nat k)).

(** The layout of [repr]: scientific notation when the decimal point falls
    more than 16 digits to the right of the first digit or more than 3
    zeros to its left, positional notation otherwise. *)
Definition layout (z q : Z) : string :=
  let ds := str_of_Z z in
  let nd := Z.of_nat (String.length ds) in
  let decpt := nd + q in
  if (decpt <=? -4) || (16 <? decpt) then
    let x := decpt - 1 in
    let xs := str_of_Z (Z.abs x) in
    String.substring 0 1 ds
      +:+ (if 1 <? nd then "." +:+ String.substring 1 (String.length ds - 1) ds
           else "")
      +:+ "e" +:+ (if x <? 0 then "-" else "+")
      +:+ (if Z.abs x <? 10 then "0" else "") +:+ xs
  else if decpt <=? 0 then "0." +:+ zeros (- decpt) +:+ ds
  else if nd <=? decpt then ds +:+ zeros (decpt - nd) +:+ ".0"
  else String.substring 0 (Z.to_nat decpt) ds +:+ "."
         +:+ String.substring (Z.to_nat decpt) (String.length ds - Z.to_nat decpt) ds.

(** [repr(f)] for a float. *)
Definition repr_of_float (f : spec_float) : string :=
  match f with
  | S754_nan => "nan"
  | S754_infinity s => if s then "-inf" else "inf"
  | S754_zero s => if s then "-0.0" else "0.0"
  | S754_finite s m e =>
      let '(z, q) := shortest m e 17 1 in
      let '(z, q) := trim_zeros 17 z q in
      (if s then "-" else "") +:+ layout z q
  end.

Definition dquote : ascii := ascii_of_N 34.

Definition hex_digit (k : Z) : ascii :=
  if k <? 10 then ascii_of_N (Z.to_N (48 + k)) else ascii_of_N (Z.to_N (87 + k)).

(** A code point below 256 that [repr] prints as it is. *)
Definition printable (c : ascii) : bool :=
  let k := code c in
  (32 <=? k) && negb (k =? 127) && negb ((128 <=? k) && (k <=? 160))
  && negb (k =? 173).

Definition escape (quote c : ascii) : list ascii :=
  let k := code c in
  if Ascii.eqb c quote || Ascii.eqb c "\" then ["\"%char; c]
  else if k =? 9 then ["\"; "t"]%char
  else if k =? 10 then ["\"; "n"]%char
  else if k =? 13 then ["\"; "r"]%char
  else if printable c then [c]
  else ["\"%char; "x"%char; hex_digit (k / 16); hex_digit (k mod 16)].

(** [repr(s)] for a string: in single quotes, unless it holds a single quote
    and no double quote. *)
Definition repr_of_str (s : string) : string :=
  let l := list_ascii_of_string s in
  let quote :=
    if existsb (Ascii.eqb "'") l && negb (existsb (Ascii.eqb dquote) l)
    then dquote else "'"%char in
  string_of_list_ascii ([quote] ++ concat (map (escape quote) l) ++ [quote]).

Definition repr_of_atom (a : atom) : string :=
  match a with
  | ANone => "None"
  | ABool b => if b then "True" else "False"
  | AInt z => str_of_Z z
  | AFloat f => repr_of_float f
  | AStr s => repr_of_str s
  end.

(** [repr(value)] *)
Fixpoint py_repr (v : pyvalue) : string :=
  match v with
  | VNone => "None"
  | VBool b => if b then "True" else "False"
  | VInt z => str_of_Z z
  | VFloat f => repr_of_float f
  | VStr s => repr_of_str s
  | VList l => "[" +:+ String.concat ", " (map py_repr l) +:+ "]"
  | VDict d =>
      "{" +:+ String.concat ", "
                (map (fun kv => repr_of_atom (fst kv) +:+ ": " +:+ py_repr (snd kv)) d)
          +:+ "}"
  end.

(** The text of [str(value)]. *)
Definition py_str (v : pyvalue) : string :=
  match v with
  | VStr s => s
  | _ => py_repr v
  end.

(** An int with more digits than may be written to a string. *)
Definition long_int (z : Z) : bool := int_max_str_digits <? ndigits (Z.abs z).

Definition long_atom (a : atom) : bool :=
  match a with
  | AInt z => long_int z
  | ANone | ABool _ | AFloat _ | AStr _ => false
  end.

(** The value is, or holds as an element, a key or a value at any depth, an
    int that may not be written to a string. *)
Fixpoint has_long_int (v : pyvalue) : bool :=
  match v with
  | VInt z => long_int z
  | VList l => existsb has_long_int l
  | VDict d => existsb (fun kv => long_atom (fst kv) || has_long_int (snd kv)) d
  | VNone | VBool _ | VFloat _ | VStr _ => false
  end.

(** [str(value)]: ValueError when an int to be written is over the limit. *)
Definition checked_str (v : pyvalue) : res string :=
  if has_long_int v then Raise ValueError else Ret (py_str v).

(** ** [dict] and [list] *)

Definition int_of_atom (a : atom) : option Z :=
  match a with
  | ABool b => Some (if b then 1 else 0)
  | AInt z => Some z
  | _ => None
  end.

(** Is the float [f] the integer [z]? *)
Definition float_is_Z (f : spec_float) (z : Z) : bool :=
  match f with
  | S754_zero _ => z =? 0
  | S754_finite s m e =>
      let a := if s then Zneg m else Zpos m in
      if 0 <=? e then z =? a * 2 ^ e
      else (a mod 2 ^ (- e) =? 0) && (z =? a / 2 ^ (- e))
  | S754_infinity _ | S754_nan => false
  end.

(** [a == b] on keys: numbers compare by value whatever their type, a NaN
    equals nothing. *)
Definition atom_eqb (a b : atom) : bool :=
  match a, b with
  | ANone, ANone => true
  | AStr s, AStr s' => String.eqb s s'
  | AFloat f, AFloat g => SFeqb f g
  | AFloat f, _ =>
      match int_of_atom b with Some z => float_is_Z f z | None => false end
  | _, AFloat g =>
      match int_of_atom a with Some z => float_is_Z g z | None => false end
  | _, _ =>
      match int_of_atom a, int_of_atom b with
      | Some x, Some y => x =? y
      | _, _ => false
      end
  end.

(** [d[k]], [None] when [k not in d]. *)
Fixpoint dict_lookup (k : atom) (d : list (atom * pyvalue)) : option pyvalue :=
  match d with
  | [] => None
  | (k', v) :: d' => if atom_eqb k' k then Some v else dict_lookup k d'
  end.

(** [d[k] = v]: an equal key keeps its place and its first spelling. *)
Fixpoint dict_set (k : atom) (v : pyvalue) (d : list (atom * pyvalue))
  : list (atom * pyvalue) :=
  match d with
  | [] => [(k, v)]
  | (k', v') :: d' =>
      if atom_eqb k' k then (k', v) :: d' else (k', v') :: dict_set k v d'
  end.

Definition chars (s : string) : list pyvalue :=
  map (fun c => VStr (String c EmptyString)) (list_ascii_of_string s).

(** [list(value)]: the elements of a list, the characters of a string, the
    keys of a dict; nothing else is iterable. *)
Definition py_list (v : pyvalue) : res (list pyvalue) :=
  match v with
  | VList l => Ret l
  | VStr s => Ret (chars s)
  | VDict d => Ret (map (fun kv => value_of_atom (fst kv)) d)
  | VNone | VBool _ | VInt _ | VFloat _ => Raise TypeError
  end.

(** One element of the sequence given to [dict]: it must be iterable
    (TypeError) and have exactly two items (ValueError). *)
Definition pair_of_item (item : pyvalue) : res (pyvalue * pyvalue) :=
  match py_list item with
  | Raise e => Raise e
  | Ret [k; v] => Ret (k, v)
  | Ret _ => Raise ValueError
  end.

Fixpoint dict_of_items (items : list pyvalue) (acc : list (atom * pyvalue))
  : res (list (atom * pyvalue)) :=
  match items with
  | [] => Ret acc
  | item :: items' =>
      match pair_of_item item with
      | Raise e => Raise e
      | Ret (k, v) =>
          match atom_of_value k with
          | None => Raise TypeError
          | Some a => dict_of_items items' (dict_set a v acc)
          end
      end
  end.

(** [dict(value)]: a copy of a dict, or the dict built from an iterable of
    key/value pairs. *)
Definition py_dict (v : pyvalue) : res (list (atom * pyvalue)) :=
  match v with
  | VDict d => Ret d
  | _ =>
      match py_list v with
      | Raise e => Raise e
      | Ret items => dict_of_items items []
      end
  end.

(** ** Schema nodes *)

(** A node of the mapping: a dict with the keys below.  A field is [None]
    when the key is absent (for [destination], [min_len] and [max_len] also
    when it is present with the value [None], which [get(key, None)] does
    not tell apart).  The children keep the order in which [items()]
    yields them. *)
Inductive node := Node {
  n_type : option pytype;
  n_strict : option bool;
  n_optional : option bool;
  n_destination : option string;
  n_min_len : option Z;
  n_max_len : option Z;
  n_children : option (list (string * node))
}.

(** The five types a node may ask for. *)
Inductive kind := Kstr | Kint | Kfloat | Kdict | Klist.

Definition type_of_kind (k : kind) : pytype :=
  match k with
  | Kstr => Tstr
  | Kint => Tint
  | Kfloat => Tfloat
  | Kdict => Tdict
  | Klist => Tlist
  end.

(** [t in [str, int, float, dict, list]], and which of them [t] is. *)
Definition recognise (t : pytype) : option kind :=
  match t with
  | Tstr => Some Kstr
  | Tint => Some Kint
  | Tfloat => Some Kfloat
  | Tdict => Some Kdict
  | Tlist => Some Klist
  | Tbool | TNoneType | Tother _ => None
  end.

(** The contents of an object whose type is exactly that of [k]. *)
Definition payload (k : kind) : Type :=
  match k with
  | Kstr => string
  | Kint => Z
  | Kfloat => spec_float
  | Kdict => list (atom * pyvalue)
  | Klist => list pyvalue
  end.

Definition inject (k : kind) : payload k -> pyvalue :=
  match k with
  | Kstr => VStr
  | Kint => VInt
  | Kfloat => VFloat
  | Kdict => VDict
  | Klist => VList
  end.

(** [Some] contents when [type(value) is t], [None] otherwise. *)
Definition project (k : kind) (v : pyvalue) : option (payload k) :=
  match k, v with
  | Kstr, VStr s => Some s
  | Kint, VInt z => Some z
  | Kfloat, VFloat f => Some f
  | Kdict, VDict d => Some d
  | Klist, VList l => Some l
  | _, _ => None
  end.

(** The constructor call of lines 217-226. *)
Definition coerce (k : kind) (v : pyvalue) : res (payload k) :=
  match k with
  | Kstr => checked_str v
  | Kint => py_int v
  | Kfloat => py_float v
  | Kdict => py_dict v
  | Klist => py_list v
  end.

(** Truth value of [destination], [min_len] and [max_len]. *)
Definition truthy_str (o : option string) : bool :=
  match o with
  | Some s => negb (String.eqb s "")
  | None => false
  end.

Definition truthy_int (o : option Z) : bool :=
  match o with
  | Some z => negb (z =? 0)
  | None => false
  end.

(** ** [__bind] and [bind] *)

(** [__bind] uses its argument [out] through item assignment only, so the
    embedding takes any object with that operation: the dict that [bind]
    passes, or a recorder that keeps the assignments in the order they were
    made. *)
Class SetItem (O : Type) := setitem : string -> pyvalue -> O -> O.

#[global] Instance dict_setitem : SetItem (gmap string pyvalue) :=
  fun k v out => <[k := v]> out.

#[global] Instance recorder_setitem : SetItem (list (string * pyvalue)) :=
  fun k v log => log ++ [(k, v)].

(** Lines 211-228: the strict type test, or the conversion with its
    [except ValueError]. *)
Definition type_resolution (k : kind) (t : pytype) (strict : bool)
    (value : pyvalue) (path : list string) : res (payload k) :=
  if strict then
    match project k value with
    | None => Raise (InvalidTypeException path (type_of value) t value true)
    | Some final_value => Ret final_value
    end
  else
    match coerce k value with
    | Raise ValueError =>
        Raise (InvalidTypeException path (type_of value) t value false)
    | r => r
    end.

(** Lines 235-241: the exception raised by the length tests, if any. *)
Definition check_length (mapping : node) (path : list string) (value : pyvalue)
    (final_value : string) : option exn :=
  let len := Z.of_nat (String.length final_value) in
  let min_len := n_min_len mapping in
  if truthy_int min_len && (len <? default 0 min_len) then
    Some (InvalidStringLengthException path value
            (">= " +:+ str_of_Z (default 0 min_len)))
  else
    let max_len := n_max_len mapping in
    if truthy_int max_len && (default 0 max_len <? len) then
      Some (InvalidStringLengthException path value
              ("<= " +:+ str_of_Z (default 0 max_len)))
    else None.

Section Bind.
Context {O : Type} `{!SetItem O}.

(** The state of [out] when a call ends, and the exception it ended with,
    if any. *)
Definition outcome : Type := O * option exn.

(** Lines 230-232. *)
Definition write_destination (mapping : node) (final_value : pyvalue)
    (out : O) : O :=
  let destination := n_destination mapping in
  if truthy_str destination then
    setitem (default "" destination) final_value out
  else out.

Section Children.
(** The recursive call, and the dict being traversed. *)
Variable bind_rec : pyvalue -> node -> list string -> O -> outcome.
Variable final_value : list (atom * pyvalue).

(** Lines 244-253: the loop over the children.  [path] is rebound to the
    extended copy in each round, and the next round copies that. *)
Fixpoint bind_children (children : list (string * node))
    (path : list string) (out : O) : outcome :=
  match children with
  | [] => (out, None)
  | (key, node) :: rest =>
      let path := path ++ [key] in
      let optional := default false (n_optional node) in
      match dict_lookup (AStr key) final_value with
      | None =>
          if negb optional then
            (out, Some (RequiredValueMissingException path key))
          else bind_children rest path out
      | Some v =>
          match bind_rec v node path out with
          | (out, None) => bind_children rest path out
          | (out, Some e) => (out, Some e)
          end
      end
  end.
End Children.

(** Lines 205-253. *)
Fixpoint __bind (value : pyvalue) (mapping : node) (path : list string)
    (out : O) {struct mapping} : outcome :=
  let strict := default true (n_strict mapping) in
  match n_type mapping with
  | None => (out, Some (KeyError "type"))
  | Some t =>
      match recognise t with
      | None =>
          (out, Some (BindException path
                        ("Unknown expected type: " +:+ str_of_type t)))
      | Some k =>
          match type_resolution k t strict value path with
          | Raise e => (out, Some e)
          | Ret final_value =>
              let out := write_destination mapping (inject k final_value) out in
              match k return payload k -> outcome with
              | Kstr => fun final_value =>
                  (out, check_length mapping path value final_value)
              | Kdict => fun final_value =>
                  match n_children mapping with
                  | Some children =>
                      bind_children __bind final_value children path out
                  | None => bind_children __bind final_value [] path out
                  end
              | Kint | Kfloat | Klist => fun _ => (out, None)
              end final_value
          end
      end
  end.
End Bind.

(** Lines 200-202 of [bind]: the local [out] and the exception, if any, when
    the body ends. *)
Definition bind_body (data : pyvalue) (mapping : gmap string node)
  : gmap string pyvalue * option exn :=
  let out : gmap string pyvalue := ∅ in
  match mapping !! "root" with
  | None => (out, Some (KeyError "root"))
  | Some root_mapping => __bind data root_mapping ["root"] out
  end.

(** [bind(data, mapping)]: the dict returned, or the exception raised. *)
Definition bind (data : pyvalue) (mapping : gmap string node)
  : res (gmap string pyvalue) :=
  match bind_body data mapping with
  | (out, None) => Ret out
  | (_, Some e) => Raise e
  end.

(** ** Example schemas *)

(** A node without children, as a dict with the key [type] and, when given,
    [strict], [destination], [min_len] and [max_len]. *)
Definition leaf (t : pytype) (strict : option bool) (destination : option string)
    (min_len max_len : option Z) : node :=
  Node (Some t) strict None destination min_len max_len None.

(** A strict [dict] node with the given children and no destination. *)
Definition branch (children : list (string * node)) : node :=
  Node (Some Tdict) None None None None None (Some children).

(** A strict [int] node stored under ['age']. *)
Definition age_strict : node := leaf Tint (Some true) (Some "age") None None.

(** The mapping of the docstring of [bind], with the type objects the
    code compares against in place of their names. *)
Definition docstring_mapping : gmap string node :=
  {[ "root" :=
       branch
         [ ("name", leaf Tstr None (Some "name") (Some 1) (Some 10));
           ("info", branch [ ("age", leaf Tint (Some false) (Some "age") None None) ]) ] ]}.

Definition docstring_data : pyvalue :=
  VDict [ (AStr "not_used", VInt 5);
          (AStr "name", VStr "John Doe");
          (AStr "info", VDict [ (AStr "country", VStr "BE"); (AStr "age", VStr "78") ]) ].


(** An [int] node that converts. *)
Definition int_nonstrict : node := leaf Tint (Some false) None None None.

(** Two strict [int] children under the root. *)
Definition two_ints : gmap string node :=
  {[ "root" := branch [ ("a", leaf Tint None None None None);
                        ("b", leaf Tint None None None None) ] ]}.

(** A dict node with the children [a], [b] and [c], where [b] is optional
    or not. *)
Definition abc_node (b_optional : option bool) : node :=
  branch [ ("a", leaf Tint None (Some "a") None None);
           ("b", Node (Some Tint) None b_optional (Some "b") None None None);
           ("c", leaf Tstr None (Some "c") None None) ].

Definition ac_items : list (atom * pyvalue) :=
  [ (AStr "a", VInt 1); (AStr "c", VStr "z") ].

(** Two nodes at different depths with the destination [x]: [outer] one
    level below the root, [inner] two levels below. *)
Definition collide_mapping : gmap string node :=
  {[ "root" :=
       branch [ ("outer", leaf Tstr None (Some "x") None None);
                ("info", branch [ ("inner", leaf Tint None (Some "x") None None) ]) ] ]}.

Definition collide_data : pyvalue :=
  VDict [ (AStr "outer", VStr "first");
          (AStr "info", VDict [ (AStr "inner", VInt 2) ]) ].

(** ** Vocabulary of the statements *)



(** The dict obtained from [out] by making recorded assignments in their
    order. *)
Definition replay (log : list (string * pyvalue)) (out : gmap string pyvalue)
  : gmap string pyvalue :=
  foldl (fun o kv => <[fst kv := snd kv]> o) out log.

(** ** Vocabulary of the further properties *)

(** The path stored by an exception of the module. *)
Definition exn_path (e : exn) : option (list string) :=
  match e with
  | BindException path _ | InvalidTypeException path _ _ _ _
  | InvalidStringLengthException path _ _
  | RequiredValueMissingException path _ => Some path
  | KeyError _ | ValueError | TypeError | OverflowError => None
  end.

(** The nodes of a schema, a node before its children. *)
Fixpoint subnodes (mapping : node) : list node :=
  mapping ::
    match n_children mapping with
    | Some children => flat_map (fun kc => subnodes (snd kc)) children
    | None => []
    end.

(** The final value when the type test or the conversion goes through. *)
Definition type_ok (k : kind) (strict : bool) (v : pyvalue) : option (payload k) :=
  if strict then project k v
  else match coerce k v with
       | Ret final_value => Some final_value
       | Raise _ => None
       end.

(** Neither bound is set, not zero and broken. *)
Definition length_ok (mapping : node) (s : string) : bool :=
  let len := Z.of_nat (String.length s) in
  negb (truthy_int (n_min_len mapping) && (len <? default 0 (n_min_len mapping)))
  && negb (truthy_int (n_max_len mapping) && (default 0 (n_max_len mapping) <? len)).

(** The data a schema accepts, said without path, [out] or order: the type
    fits, a string has a length within the bounds, and each child of a dict
    node is absent and optional, or present and accepted. *)
Fixpoint conforms (value : pyvalue) (mapping : node) {struct mapping} : bool :=
  match n_type mapping with
  | None => false
  | Some t =>
      match recognise t with
      | None => false
      | Some k =>
          match type_ok k (default true (n_strict mapping)) value with
          | None => false
          | Some final_value =>
              match k return payload k -> bool with
              | Kstr => fun s => length_ok mapping s
              | Kdict => fun d =>
                  match n_children mapping with
                  | Some children =>
                      forallb
                        (fun kc =>
                           match dict_lookup (AStr (fst kc)) d with
                           | None => default false (n_optional (snd kc))
                           | Some v => conforms v (snd kc)
                           end)
                        children
                  | None => true
                  end
              | Kint | Kfloat | Klist => fun _ => true
              end final_value
          end
      end
  end.

(** The same schema with [strict] set to [False] in every node. *)
Fixpoint relax (mapping : node) : node :=
  match mapping with
  | Node ty _ op de mn mx ch =>
      Node ty (Some false) op de mn mx
        match ch with
        | Some children => Some (map (fun kc => (fst kc, relax (snd kc))) children)
        | None => None
        end
  end.

(** Some node of the schema has the destination [x], which is not empty,
    and asks for the type of [v]. *)
Definition written_by (mapping : node) (x : string) (v : pyvalue) : Prop :=
  exists n : node,
    In n (subnodes mapping) /\ n_destination n = Some x /\ x <> ""
    /\ n_type n = Some (type_of v).


(** ** The traversal, read off the schema *)

(** A node that the traversal reaches: how deep it lies below the root, the
    node, and its final value. *)
Record visit := Visit {
  v_depth : nat;
  v_node : node;
  v_value : pyvalue
}.

(** The nodes that a depth-first traversal of the schema along the data
    reaches, in the order in which it reaches them: a node whose type fits,
    and then, for each of its children in turn whose key the dict holds, the
    nodes reached from that child, one level deeper. *)
Fixpoint visited (depth : nat) (value : pyvalue) (mapping : node)
    {struct mapping} : list visit :=
  match n_type mapping with
  | None => []
  | Some t =>
      match recognise t with
      | None => []
      | Some k =>
          match type_ok k (default true (n_strict mapping)) value with
          | None => []
          | Some final_value =>
              Visit depth mapping (inject k final_value) ::
                match k return payload k -> list visit with
                | Kdict => fun d =>
                    match n_children mapping with
                    | Some children =>
                        flat_map
                          (fun kc =>
                             match dict_lookup (AStr (fst kc)) d with
                             | Some v => visited (S depth) v (snd kc)
                             | None => []
                             end)
                          children
                    | None => []
                    end
                | Kstr | Kint | Kfloat | Klist => fun _ => []
                end final_value
          end
      end
  end.

(** One assignment for each visit of a node with a destination that is not
    empty: the destination receives the final value of the node. *)
Definition writes_of (visits : list visit) : list (string * pyvalue) :=
  flat_map
    (fun e =>
       if truthy_str (n_destination (v_node e))
       then [ (default "" (n_destination (v_node e)), v_value e) ]
       else [])
    visits.

(** A dict node stored under [x] with a child stored under [x] too. *)
Definition nested_child : node := leaf Tint None (Some "x") None None.

Definition nested_root : node :=
  Node (Some Tdict) None None (Some "x") None None (Some [ ("inner", nested_child) ]).

Definition nested_data : pyvalue := VDict [ (AStr "inner", VInt 2) ].

(** ** The exception classes as objects *)

(** The four classes of lines 1-109.  The last three derive from
    [BindException]. *)
Inductive exn_class :=
| BindException_class
| InvalidTypeException_class
| InvalidStringLengthException_class
| RequiredValueMissingException_class.

(** What an attribute of an instance holds: a value or a type object. *)
Inductive attr :=
| AValue (v : pyvalue)
| AType (t : pytype).

(** [repr] of an attribute; a type prints the same under [str] and [repr]. *)
Definition repr_of_attr (a : attr) : string :=
  match a with
  | AValue v => py_repr v
  | AType t => str_of_type t
  end.

(** An instance: its class and its [__dict__]. *)
Record instance := MkInstance {
  i_class : exn_class;
  i_dict : gmap string attr
}.

(** A path as the Python list it is. *)
Definition path_value (path : list string) : pyvalue := VList (map VStr path).




Definition RequiredValueMissingException_new (path : list string) (key : string)
  : instance :=
  MkInstance RequiredValueMissingException_class
    (<["key" := AValue (VStr key)]>
       (<["path" := AValue (path_value path)]> ∅)).

(** What printing an instance gives: a string, or the AttributeError of a
    failed attribute lookup. *)
Inductive printed :=
| Printed (s : string)
| AttributeError (name : string).

(** [repr(self.name)], then the rest of the formatting. *)
Definition with_repr (self : instance) (name : string)
    (rest : string -> printed) : printed :=
  match i_dict self !! name with
  | Some a => rest (repr_of_attr a)
  | None => AttributeError name
  end.

(** Lines 17-18. *)
Definition BindException_repr (self : instance) : printed :=
  with_repr self "path" (fun path =>
  with_repr self "msg" (fun msg =>
  Printed ("BindException(" +:+ path +:+ ", " +:+ msg +:+ ")"))).

(** Lines 51-56. *)
Definition InvalidTypeException_repr (self : instance) : printed :=
  with_repr self "path" (fun path =>
  with_repr self "found_type" (fun found_type =>
  with_repr self "expected_type" (fun expected_type =>
  with_repr self "value" (fun value =>
  with_repr self "strict" (fun strict =>
  Printed ("InvalidTypeException(" +:+ path +:+ ", " +:+ found_type +:+ ", "
             +:+ expected_type +:+ ", " +:+ value +:+ ", " +:+ strict +:+ ")")))))).

(** Lines 103-106. *)
Definition RequiredValueMissingException_repr (self : instance) : printed :=
  with_repr self "path" (fun path =>
  with_repr self "key" (fun key =>
  Printed ("RequiredValueMissingException(" +:+ path +:+ ", " +:+ key +:+ ")"))).

(** The [__repr__] a class body defines.  [InvalidStringLengthException]
    defines none: the [def]s of lines 80-87 are statements of its
    [__init__], local functions that are dropped when it returns. *)
Definition own_repr (c : exn_class) : option (instance -> printed) :=
  match c with
  | BindException_class => Some BindException_repr
  | InvalidTypeException_class => Some InvalidTypeException_repr
  | InvalidStringLengthException_class => None
  | RequiredValueMissingException_class => Some RequiredValueMissingException_repr
  end.

(** [repr(self)]: the [__repr__] of the class, or else that of its base
    [BindException]. *)
Definition exn_repr (self : instance) : printed :=
  default BindException_repr (own_repr (i_class self)) self.

(** [str(self)]: every [__str__] in a class body is [return repr(self)]
    (lines 20-21, 58-59, 108-109), and [InvalidStringLengthException]
    inherits that of [BindException]. *)
Definition exn_str (self : instance) : printed := exn_repr self.


(** * Properties *)

(** ** Unfolding and the type test *)

Section Facts.
Context {O : Type} `{!SetItem O}.

(** One round of [__bind], whatever the shape of the node. *)
Lemma __bind_eq (value : pyvalue) (mapping : node) (path : list string)
    (out : O) :
  __bind value mapping path out =
  match n_type mapping with
  | None => (out, Some (KeyError "type"))
  | Some t =>
      match recognise t with
      | None =>
          (out, Some (BindException path
                        ("Unknown expected type: " +:+ str_of_type t)))
      | Some k =>
          match type_resolution k t (default true (n_strict mapping)) value path with
          | Raise e => (out, Some e)
          | Ret final_value =>
              let out := write_destination mapping (inject k final_value) out in
              match k return payload k -> outcome with
              | Kstr => fun final_value =>
                  (out, check_length mapping path value final_value)
              | Kdict => fun final_value =>
                  bind_children __bind final_value
                    (default [] (n_children mapping)) path out
              | Kint | Kfloat | Klist => fun _ => (out, None)
              end final_value
          end
      end
  end.
Proof.
  destruct mapping as [ty st op de mn mx ch]; simpl.
  destruct ty as [t|]; [|reflexivity].
  destruct (recognise t) as [k|]; [|reflexivity].
  destruct (type_resolution k t (default true st) value path) as [fv|e];
    [|reflexivity].
  destruct k; try reflexivity.
  destruct ch; reflexivity.
Qed.
End Facts.

Lemma recognise_Some (t : pytype) (k : kind) :
  recognise t = Some k -> t = type_of_kind k.
Proof. destruct t, k; simpl; congruence. Qed.

(** [project] is the test [type(value) is t] ... *)
Lemma project_None (k : kind) (v : pyvalue) :
  project k v = None <-> type_of v <> type_of_kind k.
Proof. destruct k, v; simpl; split; congruence. Qed.

(** ... and when it passes, the contents are those of [value] itself. *)
Lemma project_Some (k : kind) (v : pyvalue) (p : payload k) :
  project k v = Some p <-> inject k p = v.
Proof.
  destruct k, v; simpl in *; split; intros H; try discriminate;
    injection H as ->; reflexivity.
Qed.

(** In strict mode the final value is the value that was passed. *)
Lemma type_resolution_strict (k : kind) (t : pytype) (v : pyvalue)
    (path : list string) (p : payload k) :
  type_resolution k t true v path = Ret p -> inject k p = v.
Proof.
  unfold type_resolution. destruct (project k v) as [q|] eqn:E; [|discriminate].
  intros [= <-]. by apply project_Some.
Qed.

(** What a conversion can raise. *)
Lemma coerce_raises (k : kind) (v : pyvalue) (e : exn) :
  coerce k v = Raise e -> e = ValueError \/ e = TypeError \/ e = OverflowError.
Proof.
  assert (Hlist : forall w e', py_list w = Raise e' -> e' = TypeError).
  { intros w e'. destruct w; simpl; congruence. }
  assert (Hitems : forall items acc e',
             dict_of_items items acc = Raise e' ->
             e' = ValueError \/ e' = TypeError).
  { induction items as [|item items IH]; intros acc e'; simpl; [discriminate|].
    unfold pair_of_item.
    destruct (py_list item) as [l|e0] eqn:El.
    - destruct l as [|x [|y [|z l]]]; try (intros [= <-]; by left).
      destruct (atom_of_value x); [apply IH|intros [= <-]; by right].
    - intros [= <-]. right. by eapply Hlist. }
  destruct k; simpl.
  - unfold checked_str. destruct (has_long_int v); intros [= <-]; auto.
  - destruct v; simpl; try (intros [= <-]; auto; fail).
    + destruct f; simpl; intros [= <-]; auto.
    + destruct (int_of_str s); intros [= <-]; auto.
  - assert (HZ : forall z, float_of_Z z = Raise e -> e = OverflowError).
    { intros z. unfold float_of_Z.
      destruct (binary_normalize prec emax z 0 false); congruence. }
    destruct v; simpl; try (intros [= <-]; auto; fail).
    + intros Hz. apply HZ in Hz. auto.
    + intros Hz. apply HZ in Hz. auto.
    + destruct (float_of_str s); intros [= <-]; auto.
  - unfold py_dict. destruct v; simpl; try (intros [= <-]; auto; fail).
    + intros Hi. apply Hitems in Hi. tauto.
    + intros Hi. apply Hitems in Hi. tauto.
  - intros Hl. apply Hlist in Hl. auto.
Qed.

(** ** The entry point and the type of a node *)

(** C10.  When the mapping given to [bind] has no entry under the key
    ["root"], the call ends with the KeyError of the failed lookup, which is
    not an exception of the module; this happens whatever the data are, and
    the local [out] is still empty. *)
Theorem bind_without_root (data : pyvalue) (mapping : gmap string node) :
  mapping !! "root" = None ->
  bind data mapping = Raise (KeyError "root")
  /\ bind_body data mapping = (∅, Some (KeyError "root"))
  /\ is_BindException (KeyError "root") = false.
Proof.
  intros Hroot. unfold bind, bind_body. rewrite Hroot. auto.
Qed.

Lemma bind_without_root_witness :
  bind (VInt 5) ∅ = Raise (KeyError "root")
  /\ bind_body (VInt 5) ∅ = (∅, Some (KeyError "root"))
  /\ is_BindException (KeyError "root") = false.
Proof.
  apply (bind_without_root (VInt 5) ∅). reflexivity.
Defined.

(** C9.  A node whose type is none of [str], [int], [float], [dict] and
    [list] makes [__bind] raise a plain [BindException] that carries the
    path and a message, whatever the value; [out] is left as it was. *)
Theorem unknown_type_BindException (value : pyvalue) (mapping : node)
    (t : pytype) (path : list string) (out : gmap string pyvalue) :
  n_type mapping = Some t ->
  recognise t = None ->
  __bind value mapping path out =
    (out, Some (BindException path ("Unknown expected type: " +:+ str_of_type t))).
Proof.
  intros Ht Hk. rewrite __bind_eq, Ht, Hk. reflexivity.
Qed.

Lemma unknown_type_BindException_witness :
  __bind (VInt 3) (Node (Some (Tother "dict")) None None None None None None)
    ["root"] (∅ : gmap string pyvalue) =
    (∅, Some (BindException ["root"] "Unknown expected type: dict")).
Proof.
  apply (unknown_type_BindException (VInt 3)
           (Node (Some (Tother "dict")) None None None None None None)
           (Tother "dict") ["root"] ∅); reflexivity.
Defined.

(** ** Strict and converting nodes *)

(** C4.  On a strict [int] node every string is refused with an
    [InvalidTypeException] that carries the path, the type found, the type
    expected, the value and [True]; an int is accepted, the final value is
    the int that was passed, and it is what the destination receives. *)
Theorem strict_int_node (mapping : node) (path : list string)
    (out : gmap string pyvalue) :
  n_type mapping = Some Tint ->
  default true (n_strict mapping) = true ->
  (forall s : string,
      __bind (VStr s) mapping path out =
        (out, Some (InvalidTypeException path Tstr Tint (VStr s) true)))
  /\ (forall z : Z,
        type_resolution Kint Tint true (VInt z) path = Ret z
        /\ inject Kint z = VInt z
        /\ __bind (VInt z) mapping path out =
             (write_destination mapping (VInt z) out, None)).
Proof.
  intros Ht Hs. split.
  - intros s. rewrite __bind_eq, Ht, Hs. reflexivity.
  - intros z. repeat split. rewrite __bind_eq, Ht, Hs. reflexivity.
Qed.

Lemma strict_int_node_witness :
  (forall s : string,
      __bind (VStr s) age_strict ["root"] (∅ : gmap string pyvalue) =
        (∅, Some (InvalidTypeException ["root"] Tstr Tint (VStr s) true)))
  /\ (forall z : Z,
        type_resolution Kint Tint true (VInt z) ["root"] = Ret z
        /\ inject Kint z = VInt z
        /\ __bind (VInt z) age_strict ["root"] (∅ : gmap string pyvalue) =
             (write_destination age_strict (VInt z) ∅, None)).
Proof.
  apply (strict_int_node age_strict ["root"] ∅); reflexivity.
Defined.

(** C5.  On an [int] node with [strict] set to [False], the string ['78']
    is converted to the int 78, which is the final value, and the string
    ['abc'] is refused with an [InvalidTypeException] carrying [False]. *)
Theorem nonstrict_int_node (optional : option bool)
    (destination : option string) (min_len max_len : option Z)
    (children : option (list (string * node))) (path : list string)
    (out : gmap string pyvalue) :
  let mapping :=
    Node (Some Tint) (Some false) optional destination min_len max_len children in
  type_resolution Kint Tint false (VStr "78") path = Ret 78
  /\ __bind (VStr "78") mapping path out =
       (write_destination mapping (VInt 78) out, None)
  /\ __bind (VStr "abc") mapping path out =
       (out, Some (InvalidTypeException path Tstr Tint (VStr "abc") false)).
Proof.
  intros mapping. repeat split; rewrite __bind_eq; reflexivity.
Qed.

(** What escapes from the conversion of a node that is not strict: the
    ValueError is turned into an [InvalidTypeException], the other two
    built-in exceptions pass through. *)
Lemma type_resolution_nonstrict_raises (k : kind) (t : pytype) (v : pyvalue)
    (path : list string) (e : exn) :
  type_resolution k t false v path = Raise e ->
  e = InvalidTypeException path (type_of v) t v false
  \/ e = TypeError \/ e = OverflowError.
Proof.
  unfold type_resolution.
  destruct (coerce k v) as [p|e0] eqn:E; [discriminate|].
  destruct (coerce_raises _ _ _ E) as [-> | [-> | ->]]; intros [= <-]; auto.
Qed.

(** C2.  The claim fails on the code: of the exceptions a conversion can
    raise, only ValueError is caught.  [int([])] raises TypeError, which
    leaves [bind] as it is, and is not an exception of the module. *)
Theorem nonstrict_TypeError_escapes :
  bind (VList []) {[ "root" := int_nonstrict ]} = Raise TypeError
  /\ is_BindException TypeError = false.
Proof. split; vm_compute; reflexivity. Qed.

(** ** Paths *)

(** C1.  The claim fails on the code: the loop over the children rebinds
    [path] to the extended copy, so the key of a child that was bound
    earlier stays in the path of its later siblings.  With the children
    [a] and [b] and a value of the wrong type under [b], the path reported
    is [root, a, b]. *)
Theorem sibling_key_in_path :
  bind (VDict [ (AStr "a", VInt 1); (AStr "b", VStr "x") ]) two_ints =
    Raise (InvalidTypeException ["root"; "a"; "b"] Tstr Tint (VStr "x") true).
Proof. vm_compute; reflexivity. Qed.

(** ** String nodes *)

Section StringNode.
Variables (value : pyvalue) (mapping : node) (path : list string).
Variable s : string.





End StringNode.







(** ** Dict nodes *)

Section ChildrenFacts.
Context {O : Type}.
Variable bind_rec : pyvalue -> node -> list string -> O -> O * option exn.
Variable final_value : list (atom * pyvalue).

(** A child whose key is missing is never passed to the recursive call:
    the loop raises, or goes on with the same [out]. *)
Lemma bind_children_absent (key : string) (child : node)
    (rest : list (string * node)) (path : list string) (out : O) :
  dict_lookup (AStr key) final_value = None ->
  bind_children bind_rec final_value ((key, child) :: rest) path out =
    if default false (n_optional child)
    then bind_children bind_rec final_value rest (path ++ [key]) out
    else (out, Some (RequiredValueMissingException (path ++ [key]) key)).
Proof.
  intros Hk. simpl. rewrite Hk.
  destruct (default false (n_optional child)); reflexivity.
Qed.

(** The loop over [pre ++ post]: the rounds of [pre], then those of [post]
    with the path that the rounds of [pre] left behind. *)
Lemma bind_children_app (pre post : list (string * node))
    (path : list string) (out : O) :
  bind_children bind_rec final_value (pre ++ post) path out =
    match bind_children bind_rec final_value pre path out with
    | (out1, None) =>
        bind_children bind_rec final_value post (path ++ map fst pre) out1
    | (out1, Some e) => (out1, Some e)
    end.
Proof.
  revert path out.
  induction pre as [|[key child] pre IH]; intros path out; simpl.
  - by rewrite app_nil_r.
  - replace (path ++ key :: map fst pre)
      with ((path ++ [key]) ++ map fst pre) by (by rewrite <- app_assoc).
    destruct (dict_lookup (AStr key) final_value) as [v|].
    + destruct (bind_rec v child (path ++ [key]) out) as [out1 [e|]];
        [reflexivity|apply IH].
    + destruct (negb (default false (n_optional child)));
        [reflexivity|apply IH].
Qed.
End ChildrenFacts.

(** A dict node ends as the loop over its children does. *)
Lemma __bind_dict {O : Type} `{!SetItem O} (value : pyvalue) (mapping : node)
    (path : list string) (out : O) (d : list (atom * pyvalue)) :
  n_type mapping = Some Tdict ->
  type_resolution Kdict Tdict (default true (n_strict mapping)) value path = Ret d ->
  __bind value mapping path out =
    bind_children __bind d (default [] (n_children mapping)) path
      (write_destination mapping (VDict d) out).
Proof.
  intros Ht Hr. rewrite __bind_eq, Ht. simpl. rewrite Hr. reflexivity.
Qed.

(** C7.  In a dict node, take a child whose key is not in the dict, reached
    after the children before it were bound without error.  If the child is
    not optional (the default) the call ends with a
    [RequiredValueMissingException] naming the key.  If it is optional,
    nothing is raised for it and the call goes on with the children after
    it from the same [out]: the child is not bound and nothing is
    written for it. *)
Theorem missing_child (value : pyvalue) (mapping : node) (path : list string)
    (out out1 : gmap string pyvalue) (d : list (atom * pyvalue))
    (pre post : list (string * node)) (key : string) (child : node) :
  n_type mapping = Some Tdict ->
  type_resolution Kdict Tdict (default true (n_strict mapping)) value path = Ret d ->
  n_children mapping = Some (pre ++ (key, child) :: post) ->
  dict_lookup (AStr key) d = None ->
  bind_children __bind d pre path (write_destination mapping (VDict d) out) =
    (out1, None) ->
  let path' := (path ++ map fst pre) ++ [key] in
  (default false (n_optional child) = false ->
   __bind value mapping path out =
     (out1, Some (RequiredValueMissingException path' key)))
  /\ (default false (n_optional child) = true ->
      __bind value mapping path out = bind_children __bind d post path' out1).
Proof.
  intros Ht Hr Hch Hk Hpre path'.
  rewrite (__bind_dict value mapping path out d Ht Hr), Hch. simpl.
  rewrite bind_children_app, Hpre, bind_children_absent by done.
  split; intros ->; reflexivity.
Qed.

Lemma missing_child_witness :
  __bind (VDict ac_items) (abc_node None) ["root"] (∅ : gmap string pyvalue) =
    (<["a" := VInt 1]> ∅,
     Some (RequiredValueMissingException ["root"; "a"; "b"] "b"))
  /\ __bind (VDict ac_items) (abc_node (Some true)) ["root"]
       (∅ : gmap string pyvalue) =
     bind_children __bind ac_items [ ("c", leaf Tstr None (Some "c") None None) ]
       ["root"; "a"; "b"] (<["a" := VInt 1]> ∅).
Proof.
  split.
  - apply (missing_child (VDict ac_items) (abc_node None) ["root"] ∅
             (<["a" := VInt 1]> ∅) ac_items
             [ ("a", leaf Tint None (Some "a") None None) ]
             [ ("c", leaf Tstr None (Some "c") None None) ]
             "b" (Node (Some Tint) None None (Some "b") None None None));
      reflexivity.
  - apply (missing_child (VDict ac_items) (abc_node (Some true)) ["root"] ∅
             (<["a" := VInt 1]> ∅) ac_items
             [ ("a", leaf Tint None (Some "a") None None) ]
             [ ("c", leaf Tstr None (Some "c") None None) ]
             "b" (Node (Some Tint) None (Some true) (Some "b") None None None));
      reflexivity.
Defined.

(** ** Order of the writes *)

(** Induction on the schema: a property holds of every node if it holds of
    a node whenever it holds of the node's children. *)
Section NodeInduction.
Variable P : node -> Prop.
Hypothesis step :
  forall mapping : node,
    Forall (fun kc => P (snd kc)) (default [] (n_children mapping)) ->
    P mapping.

Fixpoint node_induction (mapping : node) : P mapping :=
  step mapping
    match mapping
      return Forall (fun kc => P (snd kc)) (default [] (n_children mapping))
    with
    | Node _ _ _ _ _ _ None => List.Forall_nil _
    | Node _ _ _ _ _ _ (Some children) =>
        (fix all (l : list (string * node)) : Forall (fun kc => P (snd kc)) l :=
           match l with
           | [] => List.Forall_nil _
           | kc :: l' =>
               @List.Forall_cons _ _ kc l' (node_induction (snd kc)) (all l')
           end) children
    end.
End NodeInduction.

(** Two objects passed as [out] that stay related under item assignment
    are related when [__bind] ends, and the two calls end the same way. *)
Section TwoStores.
Context {O1 O2 : Type} `{!SetItem O1} `{!SetItem O2}.
Variable R : O1 -> O2 -> Prop.
Hypothesis R_setitem :
  forall k v o1 o2, R o1 o2 -> R (setitem k v o1) (setitem k v o2).

Definition related (r1 : O1 * option exn) (r2 : O2 * option exn) : Prop :=
  R (fst r1) (fst r2) /\ snd r1 = snd r2.

Lemma write_destination_related (mapping : node) (v : pyvalue) o1 o2 :
  R o1 o2 ->
  R (write_destination mapping v o1) (write_destination mapping v o2).
Proof.
  intros HR. unfold write_destination.
  destruct (truthy_str (n_destination mapping)); auto.
Qed.

Lemma bind_children_related (rec1 : pyvalue -> node -> list string -> O1 -> O1 * option exn)
    (rec2 : pyvalue -> node -> list string -> O2 -> O2 * option exn)
    (d : list (atom * pyvalue)) (children : list (string * node)) :
  Forall (fun kc => forall v path o1 o2, R o1 o2 ->
            related (rec1 v (snd kc) path o1) (rec2 v (snd kc) path o2))
    children ->
  forall path o1 o2, R o1 o2 ->
    related (bind_children rec1 d children path o1)
      (bind_children rec2 d children path o2).
Proof.
  induction 1 as [|[key child] rest Hchild _ IH]; intros path o1 o2 HR; simpl.
  - by split.
  - destruct (dict_lookup (AStr key) d) as [v|].
    + specialize (Hchild v (path ++ [key]) o1 o2 HR). simpl in Hchild.
      destruct (rec1 v child (path ++ [key]) o1) as [o1' e1].
      destruct (rec2 v child (path ++ [key]) o2) as [o2' e2].
      destruct Hchild as [HR' He]. simpl in HR', He. subst e2.
      destruct e1; [by split|by apply IH].
    + destruct (negb (default false (n_optional child)));
        [by split|by apply IH].
Qed.

Lemma __bind_related (mapping : node) :
  forall value path o1 o2, R o1 o2 ->
    related (__bind value mapping path o1) (__bind value mapping path o2).
Proof.
  induction mapping as [mapping IH] using node_induction.
  intros value path o1 o2 HR. rewrite !__bind_eq.
  destruct (n_type mapping) as [t|]; [|by split].
  destruct (recognise t) as [k|]; [|by split].
  destruct (type_resolution k t (default true (n_strict mapping)) value path)
    as [fv|e]; [|by split].
  pose proof (write_destination_related mapping (inject k fv) o1 o2 HR) as HR'.
  destruct k; try (by split).
  by apply bind_children_related.
Qed.
End TwoStores.

(** The dict that [__bind] leaves is the one it was given with the
    assignments of the call made in their order, as a recorder passed in its
    place keeps them; and both calls end the same way. *)
Lemma __bind_recorded (value : pyvalue) (mapping : node) (path : list string)
    (out : gmap string pyvalue) :
  __bind value mapping path out =
    (replay (fst (__bind value mapping path ([] : list (string * pyvalue)))) out,
     snd (__bind value mapping path ([] : list (string * pyvalue)))).
Proof.
  pose proof (__bind_related (fun o l => o = replay l out)) as H.
  specialize (H (fun k v o1 o2 Ho =>
                   eq_trans (f_equal (insert k v) Ho)
                     (eq_sym (foldl_snoc _ out o2 (k, v))))).
  destruct (H mapping value path out [] eq_refl) as [H1 H2].
  rewrite <- H1, <- H2. by destruct (__bind value mapping path out).
Qed.

(** A replay leaves alone the keys it does not assign. *)
Lemma replay_other (log : list (string * pyvalue)) (x : string)
    (out : gmap string pyvalue) :
  x ∉ map fst log -> replay log out !! x = out !! x.
Proof.
  revert out. induction log as [|[k v] log IH]; intros out Hx; [done|].
  simpl in Hx. apply not_elem_of_cons in Hx as [Hne Hx].
  unfold replay in *. simpl. rewrite IH by done.
  by apply lookup_insert_ne.
Qed.

(** After a replay a key holds what was last assigned to it. *)
Lemma replay_last (before after : list (string * pyvalue)) (x : string)
    (b : pyvalue) (out : gmap string pyvalue) :
  x ∉ map fst after ->
  replay (before ++ (x, b) :: after) out !! x = Some b.
Proof.
  intros Hx. unfold replay. rewrite foldl_app. simpl.
  fold (replay before out).
  fold (replay after (<[x := b]> (replay before out))).
  rewrite replay_other by done. apply lookup_insert_eq.
Qed.

Lemma type_ok_resolution (k : kind) (t : pytype) (strict : bool) (v : pyvalue)
    (path : list string) :
  type_ok k strict v =
    match type_resolution k t strict v path with
    | Ret final_value => Some final_value
    | Raise _ => None
    end.
Proof.
  unfold type_ok, type_resolution. destruct strict.
  - by destruct (project k v).
  - destruct (coerce k v) as [p|e]; [done|]. by destruct e.
Qed.

(** One round of [visited], whatever the shape of the node. *)
Lemma visited_eq (depth : nat) (value : pyvalue) (mapping : node) :
  visited depth value mapping =
    match n_type mapping with
    | None => []
    | Some t =>
        match recognise t with
        | None => []
        | Some k =>
            match type_ok k (default true (n_strict mapping)) value with
            | None => []
            | Some final_value =>
                Visit depth mapping (inject k final_value) ::
                  match k return payload k -> list visit with
                  | Kdict => fun d =>
                      flat_map
                        (fun kc =>
                           match dict_lookup (AStr (fst kc)) d with
                           | Some v => visited (S depth) v (snd kc)
                           | None => []
                           end)
                        (default [] (n_children mapping))
                  | Kstr | Kint | Kfloat | Klist => fun _ => []
                  end final_value
            end
        end
    end.
Proof.
  destruct mapping as [[t|] st op de mn mx ch]; simpl; [|done].
  destruct (recognise t) as [k|]; [|done].
  destruct (type_ok k (default true st) value) as [fv|]; [|done].
  destruct k; try done. by destruct ch.
Qed.

Lemma writes_of_app (l1 l2 : list visit) :
  writes_of (l1 ++ l2) = writes_of l1 ++ writes_of l2.
Proof. apply flat_map_app. Qed.

(** The loop makes the assignments of the nodes reached from the children,
    child after child. *)
Lemma bind_children_visited (depth : nat) (d : list (atom * pyvalue))
    (children : list (string * node)) :
  Forall (fun kc => forall depth v path (log : list (string * pyvalue)),
            snd (__bind v (snd kc) path log) = None ->
            fst (__bind v (snd kc) path log) =
              log ++ writes_of (visited depth v (snd kc))) children ->
  forall path (log : list (string * pyvalue)),
    snd (bind_children __bind d children path log) = None ->
    fst (bind_children __bind d children path log) =
      log ++ writes_of
               (flat_map
                  (fun kc =>
                     match dict_lookup (AStr (fst kc)) d with
                     | Some v => visited depth v (snd kc)
                     | None => []
                     end) children).
Proof.
  induction 1 as [|[key child] rest Hchild _ IH]; intros path log; simpl.
  - by rewrite app_nil_r.
  - rewrite writes_of_app. destruct (dict_lookup (AStr key) d) as [v|].
    + specialize (Hchild depth v (path ++ [key]) log). simpl in Hchild.
      destruct (__bind v child (path ++ [key]) log) as [log1 [e|]];
        [discriminate|].
      simpl in Hchild. rewrite (Hchild eq_refl). intros Hrest.
      rewrite (IH _ _ Hrest). by rewrite app_assoc.
    + destruct (negb (default false (n_optional child))); [discriminate|].
      intros Hrest. by rewrite (IH _ _ Hrest).
Qed.

(** A call that ends without an exception has made the assignments of the
    nodes it visited, a node before the nodes below it, in the order of the
    visits. *)
Lemma __bind_visited (mapping : node) :
  forall (depth : nat) (value : pyvalue) (path : list string)
         (log : list (string * pyvalue)),
    snd (__bind value mapping path log) = None ->
    fst (__bind value mapping path log) =
      log ++ writes_of (visited depth value mapping).
Proof.
  induction mapping as [mapping IH] using node_induction.
  intros depth value path log. rewrite __bind_eq, visited_eq.
  destruct (n_type mapping) as [t|]; [|discriminate].
  destruct (recognise t) as [k|]; [|discriminate].
  rewrite (type_ok_resolution k t _ value path).
  destruct (type_resolution k t (default true (n_strict mapping)) value path)
    as [fv|e]; [|discriminate].
  assert (Hw : forall tail,
             write_destination mapping (inject k fv) log ++ writes_of tail =
             log ++ writes_of (Visit depth mapping (inject k fv) :: tail)).
  { intros tail. unfold write_destination, writes_of. simpl.
    destruct (truthy_str (n_destination mapping)); [|done].
    unfold setitem, recorder_setitem. by rewrite <- app_assoc. }
  destruct k; cbv beta iota zeta; cbn [fst snd].
  - intros _. rewrite <- Hw. by rewrite app_nil_r.
  - intros _. rewrite <- Hw. by rewrite app_nil_r.
  - intros _. rewrite <- Hw. by rewrite app_nil_r.
  - intros Hok. rewrite <- Hw.
    by rewrite (bind_children_visited (S depth) fv _ IH _ _ Hok).
  - intros _. rewrite <- Hw. by rewrite app_nil_r.
Qed.

(** C8.  When [bind] succeeds and two nodes that the depth-first traversal
    visits, at whatever depths, have the same destination, the assignments
    made to [out] are those of the visited nodes in the order of the visits,
    the final value of the earlier node first and that of the later node
    after it; and the dict returned holds under the destination the final
    value of the node visited later (the last of the nodes with that
    destination): the value of the earlier node was written and then
    overwritten. *)
Theorem later_visited_node_wins (data : pyvalue) (mapping : gmap string node)
    (root_mapping : node) (out : gmap string pyvalue)
    (before between after : list visit) (depth1 depth2 : nat)
    (node1 node2 : node) (value1 value2 : pyvalue) (x : string) :
  mapping !! "root" = Some root_mapping ->
  bind data mapping = Ret out ->
  visited 0 data root_mapping =
    before ++ Visit depth1 node1 value1 :: between
           ++ Visit depth2 node2 value2 :: after ->
  n_destination node1 = Some x ->
  n_destination node2 = Some x ->
  x <> "" ->
  (forall later : visit,
      In later after -> n_destination (v_node later) <> Some x) ->
  fst (__bind data root_mapping ["root"] ([] : list (string * pyvalue))) =
    writes_of before ++ (x, value1) :: writes_of between
      ++ (x, value2) :: writes_of after
  /\ out !! x = Some value2.
Proof.
  intros Hroot Hbind Hvis Hd1 Hd2 Hne Hlater.
  unfold bind, bind_body in Hbind. rewrite Hroot, __bind_recorded in Hbind.
  destruct (snd (__bind data root_mapping ["root"] [])) eqn:Hok; [discriminate|].
  injection Hbind as <-.
  rewrite (__bind_visited root_mapping 0 data ["root"] [] Hok), Hvis. simpl.
  assert (Hone : forall depth n v, n_destination n = Some x ->
             writes_of [Visit depth n v] = [ (x, v) ]).
  { intros depth n v Hd. unfold writes_of. simpl. rewrite Hd. simpl.
    by destruct (String.eqb_spec x ""). }
  assert (Hlog : writes_of (before ++ Visit depth1 node1 value1 :: between
                              ++ Visit depth2 node2 value2 :: after) =
                 writes_of before ++ (x, value1) :: writes_of between
                   ++ (x, value2) :: writes_of after).
  { rewrite writes_of_app.
    change (Visit depth1 node1 value1 :: between ++ Visit depth2 node2 value2 :: after)
      with ([Visit depth1 node1 value1]
              ++ between ++ [Visit depth2 node2 value2] ++ after).
    rewrite !writes_of_app, !(Hone _ _ _ Hd1), !(Hone _ _ _ Hd2). done. }
  rewrite Hlog. split; [done|].
  replace (writes_of before ++ (x, value1) :: writes_of between
             ++ (x, value2) :: writes_of after)
    with ((writes_of before ++ (x, value1) :: writes_of between)
            ++ (x, value2) :: writes_of after)
    by (by rewrite <- app_assoc).
  apply replay_last. intros Hin.
  apply list_elem_of_In, in_map_iff in Hin as ([k v] & Hk & Hkv).
  simpl in Hk. subst k. unfold writes_of in Hkv.
  apply in_flat_map in Hkv as (later & Hin & Hkv).
  destruct (n_destination (v_node later)) as [d|] eqn:Hd; simpl in Hkv;
    [|done].
  destruct (String.eqb_spec d ""); simpl in Hkv; [done|].
  destruct Hkv as [[= -> _]|[]]. by apply (Hlater later Hin).
Qed.

Lemma later_visited_node_wins_witness :
  (fst (__bind nested_data nested_root ["root"] ([] : list (string * pyvalue))) =
     writes_of [] ++ ("x", nested_data) :: writes_of []
       ++ ("x", VInt 2) :: writes_of []
   /\ (<["x" := VInt 2]> (<["x" := nested_data]> ∅) : gmap string pyvalue)
        !! "x" = Some (VInt 2))
  /\ (fst (__bind collide_data
             (branch [ ("outer", leaf Tstr None (Some "x") None None);
                       ("info", branch [ ("inner", leaf Tint None (Some "x") None None) ]) ])
             ["root"] ([] : list (string * pyvalue))) =
        writes_of
          [ Visit 0
              (branch [ ("outer", leaf Tstr None (Some "x") None None);
                        ("info", branch [ ("inner", leaf Tint None (Some "x") None None) ]) ])
              collide_data ]
          ++ ("x", VStr "first")
          :: writes_of
               [ Visit 1 (branch [ ("inner", leaf Tint None (Some "x") None None) ])
                   (VDict [ (AStr "inner", VInt 2) ]) ]
          ++ ("x", VInt 2) :: writes_of []
      /\ (<["x" := VInt 2]> (<["x" := VStr "first"]> ∅) : gmap string pyvalue)
           !! "x" = Some (VInt 2)).
Proof.
  split.
  - apply (later_visited_node_wins nested_data {[ "root" := nested_root ]}
             nested_root (<["x" := VInt 2]> (<["x" := nested_data]> ∅))
             [] [] [] 0%nat 1%nat nested_root nested_child nested_data (VInt 2)
             "x");
      [reflexivity | reflexivity | reflexivity | reflexivity | reflexivity
      | discriminate | intros later []].
  - apply (later_visited_node_wins collide_data collide_mapping
             (branch [ ("outer", leaf Tstr None (Some "x") None None);
                       ("info", branch [ ("inner", leaf Tint None (Some "x") None None) ]) ])
             (<["x" := VInt 2]> (<["x" := VStr "first"]> ∅))
             [ Visit 0
                 (branch [ ("outer", leaf Tstr None (Some "x") None None);
                           ("info", branch [ ("inner", leaf Tint None (Some "x") None None) ]) ])
                 collide_data ]
             [ Visit 1 (branch [ ("inner", leaf Tint None (Some "x") None None) ])
                 (VDict [ (AStr "inner", VInt 2) ]) ]
             [] 1%nat 2%nat
             (leaf Tstr None (Some "x") None None)
             (leaf Tint None (Some "x") None None)
             (VStr "first") (VInt 2) "x");
      [reflexivity | reflexivity | reflexivity | reflexivity | reflexivity
      | discriminate | intros later []].
Defined.

(** ** The example of the docstring *)

(** With the mapping and the data of the docstring of [bind], the result is
    the flat dict [{'name': 'John Doe', 'age': 78}]: the keys [not_used] and
    [country] are dropped. *)
Example docstring_result :
  bind docstring_data docstring_mapping =
    Ret (<["age" := VInt 78]> (<["name" := VStr "John Doe"]> ∅)).
Proof. vm_compute; reflexivity. Qed.

(** * Further properties *)

(** ** How exceptions arise *)

Lemma type_resolution_raises (k : kind) (t : pytype) (strict : bool)
    (v : pyvalue) (path : list string) (e : exn) :
  type_resolution k t strict v path = Raise e ->
  e = InvalidTypeException path (type_of v) t v strict
  \/ (strict = false /\ (e = TypeError \/ e = OverflowError)).
Proof.
  destruct strict.
  - unfold type_resolution. destruct (project k v); [discriminate|].
    intros [= <-]. by left.
  - intros He. apply type_resolution_nonstrict_raises in He. tauto.
Qed.

Lemma check_length_raises (mapping : node) (path : list string) (v : pyvalue)
    (s : string) (e : exn) :
  check_length mapping path v s = Some e ->
  exists constraint : string, e = InvalidStringLengthException path v constraint.
Proof.
  unfold check_length.
  destruct (_ && _); [intros [= <-]; eauto|].
  destruct (_ && _); [intros [= <-]; eauto|discriminate].
Qed.

(** A child of a node is a node of the schema below it. *)
Lemma subnodes_child (mapping child n : node) (key : string) :
  In (key, child) (default [] (n_children mapping)) ->
  In n (subnodes child) -> In n (subnodes mapping).
Proof.
  intros Hc Hn. destruct mapping as [ty st op de mn mx [children|]];
    simpl in *; [|done].
  right. apply in_flat_map. exists (key, child). auto.
Qed.

(** Induction on the way an exception comes out of [__bind]: a property of
    the node, the path of the call and the exception holds whenever it holds
    at the five places that raise, is passed from a child to its parent, and
    survives the lengthening of [path] by the loop. *)
Section Raised.
Context {O : Type} `{!SetItem O}.
Variable Q : node -> list string -> exn -> Prop.

Hypothesis Q_no_type :
  forall mapping path, n_type mapping = None -> Q mapping path (KeyError "type").
Hypothesis Q_unknown :
  forall mapping path t,
    n_type mapping = Some t -> recognise t = None ->
    Q mapping path
      (BindException path ("Unknown expected type: " +:+ str_of_type t)).
Hypothesis Q_type :
  forall mapping k t v path e,
    n_type mapping = Some t -> recognise t = Some k ->
    type_resolution k t (default true (n_strict mapping)) v path = Raise e ->
    Q mapping path e.
Hypothesis Q_length :
  forall mapping path v s e,
    check_length mapping path v s = Some e -> Q mapping path e.
Hypothesis Q_missing :
  forall mapping path key child,
    In (key, child) (default [] (n_children mapping)) ->
    Q mapping path (RequiredValueMissingException (path ++ [key]) key).
Hypothesis Q_child :
  forall mapping path key child e,
    In (key, child) (default [] (n_children mapping)) ->
    Q child (path ++ [key]) e -> Q mapping path e.
Hypothesis Q_sibling :
  forall mapping path key e, Q mapping (path ++ [key]) e -> Q mapping path e.

Lemma bind_children_raised (mapping : node)
    (bind_rec : pyvalue -> node -> list string -> O -> O * option exn)
    (d : list (atom * pyvalue)) (children : list (string * node)) :
  (forall kc, In kc children -> In kc (default [] (n_children mapping))) ->
  Forall (fun kc => forall v path out e,
            snd (bind_rec v (snd kc) path out) = Some e -> Q (snd kc) path e)
    children ->
  forall path out e,
    snd (bind_children bind_rec d children path out) = Some e ->
    Q mapping path e.
Proof.
  intros Hsub Hall. induction Hall as [|[key child] rest Hchild _ IH];
    intros path out e; simpl; [discriminate|].
  assert (Hin : In (key, child) (default [] (n_children mapping)))
    by (apply Hsub; by left).
  assert (Hrest : forall kc, In kc rest -> In kc (default [] (n_children mapping)))
    by (intros kc Hkc; apply Hsub; by right).
  destruct (dict_lookup (AStr key) d) as [v|].
  - specialize (Hchild v (path ++ [key]) out). simpl in Hchild.
    destruct (bind_rec v child (path ++ [key]) out) as [out1 [e1|]]; simpl in *.
    + intros [= <-]. eapply Q_child; eauto.
    + intros He. eapply Q_sibling, IH; eauto.
  - destruct (negb (default false (n_optional child))); simpl.
    + intros [= <-]. by eapply Q_missing.
    + intros He. eapply Q_sibling, IH; eauto.
Qed.

Lemma __bind_raised (mapping : node) :
  forall (value : pyvalue) (path : list string) (out : O) (e : exn),
    snd (__bind value mapping path out) = Some e -> Q mapping path e.
Proof.
  induction mapping as [mapping IH] using node_induction.
  intros value path out e. rewrite __bind_eq.
  destruct (n_type mapping) as [t|] eqn:Ht;
    [|intros [= <-]; by apply Q_no_type].
  destruct (recognise t) as [k|] eqn:Hk;
    [|intros [= <-]; by apply Q_unknown].
  destruct (type_resolution k t (default true (n_strict mapping)) value path)
    as [fv|e0] eqn:Hr; [|intros [= <-]; by eapply Q_type].
  destruct k; simpl; try discriminate.
  - intros He. by eapply Q_length.
  - apply bind_children_raised; auto.
Qed.
End Raised.

(** ** What [bind] can raise *)









(** ** The path of an exception *)

Lemma __bind_path_extends {O : Type} `{!SetItem O} (value : pyvalue)
    (mapping : node) (path : list string) (out : O) (e : exn) :
  snd (__bind value mapping path out) = Some e ->
  forall q : list string, exn_path e = Some q -> path `prefix_of` q.
Proof.
  apply (__bind_raised
           (fun _ p e => forall q, exn_path e = Some q -> p `prefix_of` q)).
  - discriminate.
  - intros m p t _ _ q [= <-]. done.
  - intros m k t v p e0 _ _ He q.
    destruct (type_resolution_raises _ _ _ _ _ _ He) as [-> | [_ [-> | ->]]];
      [intros [= <-]; done | discriminate | discriminate].
  - intros m p v s e0 He q.
    destruct (check_length_raises _ _ _ _ _ He) as [c ->].
    intros [= <-]. done.
  - intros m p key child _ q [= <-]. by exists [key].
  - intros m p key child e0 _ IH q Hq.
    destruct (IH q Hq) as [k ->]. exists (key :: k). by rewrite <- app_assoc.
  - intros m p key e0 IH q Hq.
    destruct (IH q Hq) as [k ->]. exists (key :: k). by rewrite <- app_assoc.
Qed.

(** X3.  The path of every exception of the module that leaves [bind]
    starts with ['root']. *)
Theorem bind_path_starts_at_root (data : pyvalue) (mapping : gmap string node)
    (e : exn) (q : list string) :
  bind data mapping = Raise e ->
  exn_path e = Some q ->
  exists rest : list string, q = "root" :: rest.
Proof.
  unfold bind, bind_body. destruct (mapping !! "root") as [root|].
  - pose proof (__bind_path_extends data root ["root"]
                  (∅ : gmap string pyvalue)) as H.
    destruct (__bind data root ["root"] ∅) as [out [e0|]]; [|discriminate].
    intros [= <-] Hq. destruct (H e0 eq_refl q Hq) as [k ->]. by exists k.
  - intros [= <-]. discriminate.
Qed.

Lemma bind_path_starts_at_root_witness :
  exists rest : list string, ["root"; "a"; "b"] = "root" :: rest.
Proof.
  apply (bind_path_starts_at_root
           (VDict [ (AStr "a", VInt 1); (AStr "b", VStr "x") ]) two_ints
           (InvalidTypeException ["root"; "a"; "b"] Tstr Tint (VStr "x") true));
    reflexivity.
Defined.

Lemma __bind_missing_key_last {O : Type} `{!SetItem O} (value : pyvalue)
    (mapping : node) (path : list string) (out : O) (e : exn) :
  snd (__bind value mapping path out) = Some e ->
  forall (q : list string) (key : string),
    e = RequiredValueMissingException q key -> last q = Some key.
Proof.
  apply (__bind_raised
           (fun _ _ e => forall q key,
                e = RequiredValueMissingException q key -> last q = Some key));
    try discriminate; auto.
  - intros m k t v p e0 _ _ He q key ->.
    destruct (type_resolution_raises _ _ _ _ _ _ He) as [? | [_ [? | ?]]];
      discriminate.
  - intros m p v s e0 He q key ->.
    destruct (check_length_raises _ _ _ _ _ He) as [c ?]. discriminate.
  - intros m p key child _ q key' [= <- <-]. apply last_snoc.
Qed.

(** X4.  In a [RequiredValueMissingException] that leaves [bind], the key
    that is missing is the last segment of the path. *)
Theorem missing_key_is_last_segment (data : pyvalue)
    (mapping : gmap string node) (q : list string) (key : string) :
  bind data mapping = Raise (RequiredValueMissingException q key) ->
  last q = Some key.
Proof.
  unfold bind, bind_body. destruct (mapping !! "root") as [root|];
    [|discriminate].
  pose proof (__bind_missing_key_last data root ["root"]
                (∅ : gmap string pyvalue)) as H.
  destruct (__bind data root ["root"] ∅) as [out [e0|]]; [|discriminate].
  intros [= ->]. by apply (H _ eq_refl).
Qed.

Lemma missing_key_is_last_segment_witness :
  last ["root"; "a"; "b"] = Some "b".
Proof.
  apply (missing_key_is_last_segment (VDict ac_items)
           {[ "root" := abc_node None ]} ["root"; "a"; "b"] "b").
  reflexivity.
Defined.

(** ** What is written to [out] *)

Lemma written_by_child (mapping child : node) (key x : string) (v : pyvalue) :
  In (key, child) (default [] (n_children mapping)) ->
  written_by child x v -> written_by mapping x v.
Proof.
  intros Hin (n & Hn & H). exists n. split; [|done]. by eapply subnodes_child.
Qed.

Lemma type_of_inject (k : kind) (p : payload k) :
  type_of (inject k p) = type_of_kind k.
Proof. by destruct k. Qed.

(** The assignment of lines 230-232, as a recorder sees it. *)
Lemma write_destination_recorded (mapping : node) (t : pytype) (k : kind)
    (p : payload k) (log : list (string * pyvalue)) :
  n_type mapping = Some t -> recognise t = Some k ->
  exists delta : list (string * pyvalue),
    write_destination mapping (inject k p) log = log ++ delta
    /\ Forall (fun kv => written_by mapping (fst kv) (snd kv)) delta.
Proof.
  intros Ht Hk. unfold write_destination.
  destruct (n_destination mapping) as [d|] eqn:Hd; simpl.
  - destruct (String.eqb_spec d "") as [->|Hne]; simpl.
    + exists []. by rewrite app_nil_r.
    + exists [(d, inject k p)]. split; [done|].
      constructor; [|done]. exists mapping. simpl.
      split; [destruct mapping; simpl; auto|].
      split; [done|]. split; [done|].
      rewrite type_of_inject, Ht. f_equal. by apply recognise_Some.
  - exists []. by rewrite app_nil_r.
Qed.

Lemma bind_children_recorded (mapping : node)
    (bind_rec : pyvalue -> node -> list string -> list (string * pyvalue) ->
                list (string * pyvalue) * option exn)
    (d : list (atom * pyvalue)) (children : list (string * node)) :
  (forall kc, In kc children -> In kc (default [] (n_children mapping))) ->
  Forall (fun kc => forall v path log, exists delta,
            fst (bind_rec v (snd kc) path log) = log ++ delta
            /\ Forall (fun kv => written_by (snd kc) (fst kv) (snd kv)) delta)
    children ->
  forall path log, exists delta,
    fst (bind_children bind_rec d children path log) = log ++ delta
    /\ Forall (fun kv => written_by mapping (fst kv) (snd kv)) delta.
Proof.
  intros Hsub Hall. induction Hall as [|[key child] rest Hchild _ IH];
    intros path log; simpl.
  - exists []. by rewrite app_nil_r.
  - assert (Hin : In (key, child) (default [] (n_children mapping)))
      by (apply Hsub; by left).
    assert (Hrest : forall kc, In kc rest -> In kc (default [] (n_children mapping)))
      by (intros kc Hkc; apply Hsub; by right).
    specialize (IH Hrest).
    destruct (dict_lookup (AStr key) d) as [v|].
    + destruct (Hchild v (path ++ [key]) log) as (delta1 & H1 & Hw1).
      simpl in H1, Hw1.
      destruct (bind_rec v child (path ++ [key]) log) as [log1 [e|]];
        simpl in H1; subst log1.
      * exists delta1. split; [done|].
        eapply Forall_impl; [exact Hw1|]. intros kv. by apply (written_by_child mapping child key).
      * destruct (IH (path ++ [key]) (log ++ delta1)) as (delta2 & H2 & Hw2).
        exists (delta1 ++ delta2). rewrite H2, app_assoc. split; [done|].
        apply Forall_app. split; [|done].
        eapply Forall_impl; [exact Hw1|]. intros kv. by apply (written_by_child mapping child key).
    + destruct (negb (default false (n_optional child))).
      * exists []. by rewrite app_nil_r.
      * apply IH.
Qed.

(** A call appends to the record, and every record it appends is the
    destination of a node of the schema with a value of the node's type. *)
Lemma __bind_appends (mapping : node) :
  forall (value : pyvalue) (path : list string) (log : list (string * pyvalue)),
  exists delta : list (string * pyvalue),
    fst (__bind value mapping path log) = log ++ delta
    /\ Forall (fun kv => written_by mapping (fst kv) (snd kv)) delta.
Proof.
  induction mapping as [mapping IH] using node_induction.
  intros value path log. rewrite __bind_eq.
  destruct (n_type mapping) as [t|] eqn:Ht;
    [|exists []; by rewrite app_nil_r].
  destruct (recognise t) as [k|] eqn:Hk;
    [|exists []; by rewrite app_nil_r].
  destruct (type_resolution k t (default true (n_strict mapping)) value path)
    as [fv|e0]; [|exists []; by rewrite app_nil_r].
  destruct (write_destination_recorded mapping t k fv log Ht Hk)
    as (delta0 & H0 & Hw0).
  cbv zeta. rewrite H0.
  destruct k; simpl; try (by exists delta0).
  destruct (bind_children_recorded mapping __bind fv
              (default [] (n_children mapping)) (fun _ H => H) IH path
              (log ++ delta0)) as (delta1 & H1 & Hw1).
  exists (delta0 ++ delta1). rewrite H1, app_assoc. split; [done|].
  apply Forall_app. by split.
Qed.

(** The dict a call leaves is the dict it was given with such assignments
    replayed. *)
Lemma __bind_writes (value : pyvalue) (mapping : node) (path : list string)
    (out : gmap string pyvalue) :
  exists delta : list (string * pyvalue),
    fst (__bind value mapping path out) = replay delta out
    /\ Forall (fun kv => written_by mapping (fst kv) (snd kv)) delta.
Proof.
  destruct (__bind_appends mapping value path []) as (delta & Hd & Hw).
  exists delta. rewrite __bind_recorded. simpl. by rewrite Hd.
Qed.

Lemma replay_lookup (log : list (string * pyvalue)) (x : string) (v : pyvalue)
    (out : gmap string pyvalue) :
  replay log out !! x = Some v -> out !! x = Some v \/ In (x, v) log.
Proof.
  revert out. induction log as [|[k w] log IH]; intros out; [by left|].
  unfold replay in *. simpl. intros H. destruct (IH _ H) as [Hx|Hx].
  - destruct (decide (k = x)) as [->|Hne].
    + rewrite lookup_insert_eq in Hx. injection Hx as ->. right. by left.
    + rewrite lookup_insert_ne in Hx by done. by left.
  - right. by right.
Qed.

Lemma replay_keeps (log : list (string * pyvalue)) (x : string)
    (out : gmap string pyvalue) :
  is_Some (out !! x) -> is_Some (replay log out !! x).
Proof.
  revert out. induction log as [|[k w] log IH]; intros out Hx; [done|].
  unfold replay in *. simpl. apply IH.
  destruct (decide (k = x)) as [->|Hne].
  - rewrite lookup_insert_eq. eauto.
  - by rewrite lookup_insert_ne.
Qed.

(** X5.  Every entry of the dict that [bind] returns comes from the schema:
    its key is the destination, not empty, of some node, and its value has
    the type that node asks for. *)
Theorem result_from_schema (data : pyvalue) (mapping : gmap string node)
    (root_mapping : node) (out : gmap string pyvalue) (x : string)
    (v : pyvalue) :
  mapping !! "root" = Some root_mapping ->
  bind data mapping = Ret out ->
  out !! x = Some v ->
  written_by root_mapping x v.
Proof.
  intros Hroot. unfold bind, bind_body. rewrite Hroot.
  destruct (__bind_writes data root_mapping ["root"] ∅) as (delta & Hd & Hw).
  destruct (__bind data root_mapping ["root"] ∅) as [out' [e|]];
    [discriminate|].
  intros [= <-] Hx. simpl in Hd. subst out'.
  apply replay_lookup in Hx as [Hx|Hx]; [by rewrite lookup_empty in Hx|].
  rewrite List.Forall_forall in Hw. apply (Hw _ Hx).
Qed.

Lemma result_from_schema_witness :
  written_by
    (branch
       [ ("name", leaf Tstr None (Some "name") (Some 1) (Some 10));
         ("info", branch [ ("age", leaf Tint (Some false) (Some "age") None None) ]) ])
    "age" (VInt 78).
Proof.
  apply (result_from_schema docstring_data docstring_mapping
           (branch
              [ ("name", leaf Tstr None (Some "name") (Some 1) (Some 10));
                ("info", branch [ ("age", leaf Tint (Some false) (Some "age") None None) ]) ])
           (<["age" := VInt 78]> (<["name" := VStr "John Doe"]> ∅))
           "age" (VInt 78)); reflexivity.
Defined.

(** X6.  [__bind] only adds to [out] or overwrites: a key that [out] holds
    is still there when the call ends, with or without an exception, and a
    key that is the destination of no node of the schema keeps what it
    held. *)
Theorem out_only_grows (value : pyvalue) (mapping : node) (path : list string)
    (out : gmap string pyvalue) :
  (forall x : string,
      is_Some (out !! x) ->
      is_Some (fst (__bind value mapping path out) !! x))
  /\ (forall x : string,
        (forall n : node,
            In n (subnodes mapping) -> n_destination n <> Some x) ->
        fst (__bind value mapping path out) !! x = out !! x).
Proof.
  destruct (__bind_writes value mapping path out) as (delta & -> & Hw).
  split.
  - intros x. apply replay_keeps.
  - intros x Hx. apply replay_other. intros Hin.
    apply list_elem_of_In, in_map_iff in Hin as ([k v] & <- & Hkv).
    rewrite List.Forall_forall in Hw.
    destruct (Hw _ Hkv) as (n & Hn & Hd & _). by apply (Hx n).
Qed.

(** ** The data a schema accepts *)

Lemma length_ok_check (mapping : node) (path : list string) (v : pyvalue)
    (s : string) :
  check_length mapping path v s = None <-> length_ok mapping s = true.
Proof.
  unfold check_length, length_ok.
  destruct (truthy_int (n_min_len mapping) && _); simpl; [split; discriminate|].
  destruct (truthy_int (n_max_len mapping) && _); simpl; split;
    done || discriminate.
Qed.

Lemma bind_children_accepts {O : Type}
    (bind_rec : pyvalue -> node -> list string -> O -> O * option exn)
    (d : list (atom * pyvalue)) (children : list (string * node)) :
  Forall (fun kc => forall v path out,
            snd (bind_rec v (snd kc) path out) = None <->
            conforms v (snd kc) = true) children ->
  forall path out,
    snd (bind_children bind_rec d children path out) = None <->
    forallb (fun kc =>
               match dict_lookup (AStr (fst kc)) d with
               | None => default false (n_optional (snd kc))
               | Some v => conforms v (snd kc)
               end) children = true.
Proof.
  induction 1 as [|[key child] rest Hchild _ IH]; intros path out; simpl;
    [done|].
  destruct (dict_lookup (AStr key) d) as [v|].
  - specialize (Hchild v (path ++ [key]) out). simpl in Hchild.
    destruct (bind_rec v child (path ++ [key]) out) as [out1 [e|]];
      simpl in Hchild.
    + destruct (conforms v child); simpl; [|split; discriminate].
      destruct Hchild as [_ Hc]. by specialize (Hc eq_refl).
    + destruct Hchild as [Hc _]. rewrite (Hc eq_refl). simpl. apply IH.
  - destruct (default false (n_optional child)); simpl;
      [apply IH|split; discriminate].
Qed.

(** [__bind] ends without an exception exactly on the data that conform,
    whatever the path and [out]. *)
Lemma __bind_accepts {O : Type} `{!SetItem O} (mapping : node) :
  forall (value : pyvalue) (path : list string) (out : O),
    snd (__bind value mapping path out) = None <-> conforms value mapping = true.
Proof.
  induction mapping as [mapping IH] using node_induction.
  intros value path out. rewrite __bind_eq.
  assert (Hc : conforms value mapping =
    match n_type mapping with
    | None => false
    | Some t =>
        match recognise t with
        | None => false
        | Some k =>
            match type_ok k (default true (n_strict mapping)) value with
            | None => false
            | Some final_value =>
                match k return payload k -> bool with
                | Kstr => fun s => length_ok mapping s
                | Kdict => fun d =>
                    forallb
                      (fun kc =>
                         match dict_lookup (AStr (fst kc)) d with
                         | None => default false (n_optional (snd kc))
                         | Some v => conforms v (snd kc)
                         end)
                      (default [] (n_children mapping))
                | Kint | Kfloat | Klist => fun _ => true
                end final_value
            end
        end
    end).
  { destruct mapping as [[t|] st op de mn mx ch]; simpl; [|done].
    destruct (recognise t) as [k|]; [|done].
    destruct (type_ok k (default true st) value) as [fv|]; [|done].
    destruct k; try done. by destruct ch. }
  rewrite Hc. clear Hc.
  destruct (n_type mapping) as [t|]; [|split; discriminate].
  destruct (recognise t) as [k|]; [|split; discriminate].
  rewrite (type_ok_resolution k t _ value path).
  destruct (type_resolution k t (default true (n_strict mapping)) value path)
    as [fv|e]; [|split; discriminate].
  destruct k; simpl; try done.
  - apply length_ok_check.
  - by apply bind_children_accepts.
Qed.

Lemma bind_returns_iff (data : pyvalue) (mapping : gmap string node)
    (root_mapping : node) :
  mapping !! "root" = Some root_mapping ->
  (exists out : gmap string pyvalue, bind data mapping = Ret out) <->
  conforms data root_mapping = true.
Proof.
  intros Hroot. unfold bind, bind_body. rewrite Hroot.
  rewrite <- (__bind_accepts root_mapping data ["root"]
                (∅ : gmap string pyvalue)).
  destruct (__bind data root_mapping ["root"] ∅) as [out [e|]]; simpl.
  - split; [intros [? ?]|]; discriminate.
  - split; eauto.
Qed.

(** X7.  [bind] returns a dict exactly when the data conform to the schema
    under ['root']: the type of each node fits (by the strict test or by
    conversion), each string is within its bounds, and each child of a dict
    node is either missing and optional or present and conforming. *)
Theorem bind_succeeds_iff_conforms (data : pyvalue)
    (mapping : gmap string node) (root_mapping : node) :
  mapping !! "root" = Some root_mapping ->
  (exists out : gmap string pyvalue, bind data mapping = Ret out) <->
  conforms data root_mapping = true.
Proof. apply bind_returns_iff. Qed.

Lemma bind_succeeds_iff_conforms_witness :
  (exists out : gmap string pyvalue,
      bind docstring_data docstring_mapping = Ret out) <->
  conforms docstring_data
    (branch
       [ ("name", leaf Tstr None (Some "name") (Some 1) (Some 10));
         ("info", branch [ ("age", leaf Tint (Some false) (Some "age") None None) ]) ])
  = true.
Proof.
  apply (bind_succeeds_iff_conforms docstring_data docstring_mapping).
  reflexivity.
Defined.

Lemma forallb_Permutation {A : Type} (f : A -> bool) (l1 l2 : list A) :
  Permutation l1 l2 -> forallb f l1 = forallb f l2.
Proof.
  induction 1 as [|x l1 l2 _ IH|x y l|l1 l2 l3 _ IH1 _ IH2]; simpl.
  - done.
  - by rewrite IH.
  - destruct (f x), (f y); reflexivity.
  - by rewrite IH1.
Qed.

(** X8.  Whether [bind] succeeds does not depend on the order in which the
    children of the root are listed (the dict returned may, when two nodes
    share a destination). *)
Theorem children_order_irrelevant (data : pyvalue) (ty : option pytype)
    (st op : option bool) (de : option string) (mn mx : option Z)
    (children1 children2 : list (string * node)) :
  Permutation children1 children2 ->
  (exists out : gmap string pyvalue,
      bind data {[ "root" := Node ty st op de mn mx (Some children1) ]} = Ret out)
  <->
  (exists out : gmap string pyvalue,
      bind data {[ "root" := Node ty st op de mn mx (Some children2) ]} = Ret out).
Proof.
  intros Hp.
  rewrite (bind_returns_iff data _ _ (lookup_singleton_eq _ _)).
  rewrite (bind_returns_iff data _ _ (lookup_singleton_eq _ _)).
  simpl. destruct ty as [t|]; [|done].
  destruct (recognise t) as [k|]; [|done].
  destruct (type_ok k (default true st) data) as [fv|]; [|done].
  destruct k; try done.
  by rewrite (forallb_Permutation _ _ _ Hp).
Qed.

Lemma children_order_irrelevant_witness :
  (exists out : gmap string pyvalue,
      bind (VDict ac_items)
        {[ "root" := Node (Some Tdict) None None None None None
                       (Some [ ("a", leaf Tint None (Some "a") None None);
                               ("c", leaf Tstr None (Some "c") None None) ]) ]}
      = Ret out)
  <->
  (exists out : gmap string pyvalue,
      bind (VDict ac_items)
        {[ "root" := Node (Some Tdict) None None None None None
                       (Some [ ("c", leaf Tstr None (Some "c") None None);
                               ("a", leaf Tint None (Some "a") None None) ]) ]}
      = Ret out).
Proof.
  apply (children_order_irrelevant (VDict ac_items) (Some Tdict) None None None
           None None).
  apply perm_swap.
Defined.

(** ** Keys of the data that the schema does not name *)

Lemma bind_children_lookup_only {O : Type}
    (bind_rec : pyvalue -> node -> list string -> O -> O * option exn)
    (d1 d2 : list (atom * pyvalue)) (children : list (string * node)) :
  (forall key, In key (map fst children) ->
               dict_lookup (AStr key) d1 = dict_lookup (AStr key) d2) ->
  forall path out,
    bind_children bind_rec d1 children path out =
    bind_children bind_rec d2 children path out.
Proof.
  induction children as [|[key child] rest IH]; intros Hagree path out; simpl;
    [done|].
  rewrite (Hagree key) by (by left).
  assert (Hrest : forall key', In key' (map fst rest) ->
            dict_lookup (AStr key') d1 = dict_lookup (AStr key') d2)
    by (intros key' Hk; apply Hagree; by right).
  destruct (dict_lookup (AStr key) d2) as [v|].
  - destruct (bind_rec v child (path ++ [key]) out) as [out1 [e|]];
      [done|by apply IH].
  - destruct (negb (default false (n_optional child))); [done|by apply IH].
Qed.

(** X9.  Keys of the data that are not children of the root are ignored:
    when the root is a dict node without destination, two dicts that hold
    the same values under the keys of its children give the same result,
    be it a dict or an exception. *)
Theorem unlisted_keys_ignored (d1 d2 : list (atom * pyvalue))
    (mapping : gmap string node) (root_mapping : node) :
  mapping !! "root" = Some root_mapping ->
  n_type root_mapping = Some Tdict ->
  truthy_str (n_destination root_mapping) = false ->
  (forall key : string,
      In key (map fst (default [] (n_children root_mapping))) ->
      dict_lookup (AStr key) d1 = dict_lookup (AStr key) d2) ->
  bind (VDict d1) mapping = bind (VDict d2) mapping.
Proof.
  intros Hroot Ht Hd Hagree. unfold bind, bind_body. rewrite Hroot.
  assert (Hr : forall d, type_resolution Kdict Tdict
                 (default true (n_strict root_mapping)) (VDict d) ["root"] = Ret d).
  { intros d. by destruct (default true (n_strict root_mapping)). }
  rewrite !(__bind_dict _ root_mapping ["root"] ∅ _ Ht (Hr _)).
  unfold write_destination. rewrite Hd.
  by rewrite (bind_children_lookup_only __bind d1 d2 _ Hagree).
Qed.

Lemma unlisted_keys_ignored_witness :
  bind (VDict ((AStr "not_used", VInt 5) :: ac_items))
    {[ "root" := abc_node (Some true) ]} =
  bind (VDict ac_items) {[ "root" := abc_node (Some true) ]}.
Proof.
  apply (unlisted_keys_ignored ((AStr "not_used", VInt 5) :: ac_items) ac_items
           {[ "root" := abc_node (Some true) ]} (abc_node (Some true)));
    [reflexivity | reflexivity | reflexivity |].
  intros key Hkey. simpl in Hkey.
  destruct Hkey as [<- | [<- | [<- | []]]]; reflexivity.
Defined.

(** ** Switching [strict] off *)

(** A conversion leaves a value of the type asked for as it is. *)
Lemma coerce_project (k : kind) (v : pyvalue) (p : payload k) :
  project k v = Some p -> coerce k v = Ret p.
Proof.
  destruct k, v; simpl; try discriminate; by intros [= ->].
Qed.

Lemma type_resolution_relax (k : kind) (t : pytype) (strict : bool)
    (v : pyvalue) (path : list string) (p : payload k) :
  type_resolution k t strict v path = Ret p ->
  type_resolution k t false v path = Ret p.
Proof.
  destruct strict; [|done]. unfold type_resolution.
  destruct (project k v) as [q|] eqn:Hq; [|discriminate].
  intros [= <-]. by rewrite (coerce_project k v q Hq).
Qed.

Lemma bind_children_relax {O : Type} `{!SetItem O}
    (d : list (atom * pyvalue)) (children : list (string * node)) :
  Forall (fun kc => forall v path (out out' : O),
            __bind v (snd kc) path out = (out', None) ->
            __bind v (relax (snd kc)) path out = (out', None)) children ->
  forall path (out out' : O),
    bind_children __bind d children path out = (out', None) ->
    bind_children __bind d (map (fun kc => (fst kc, relax (snd kc))) children)
      path out = (out', None).
Proof.
  induction 1 as [|[key child] rest Hchild _ IH]; intros path out out'; simpl;
    [done|].
  assert (Hop : n_optional (relax child) = n_optional child) by (by destruct child).
  rewrite Hop. destruct (dict_lookup (AStr key) d) as [v|].
  - specialize (Hchild v (path ++ [key]) out). simpl in Hchild.
    destruct (__bind v child (path ++ [key]) out) as [out1 [e|]];
      [discriminate|].
    rewrite (Hchild out1 eq_refl). apply IH.
  - destruct (negb (default false (n_optional child))); [discriminate|apply IH].
Qed.

Lemma __bind_relax {O : Type} `{!SetItem O} (mapping : node) :
  forall (value : pyvalue) (path : list string) (out out' : O),
    __bind value mapping path out = (out', None) ->
    __bind value (relax mapping) path out = (out', None).
Proof.
  induction mapping as [mapping IH] using node_induction.
  intros value path out out'. rewrite !__bind_eq.
  destruct mapping as [ty st op de mn mx ch].
  cbn [relax n_type n_strict n_children] in *.
  destruct ty as [t|]; [|done].
  destruct (recognise t) as [k|]; [|done].
  destruct (type_resolution k t (default true st) value path) as [fv|e] eqn:Hr;
    [|discriminate].
  change (default true (Some false)) with false.
  rewrite (type_resolution_relax k t _ value path fv Hr).
  destruct k; try done.
  destruct ch as [children|]; simpl in *; [|done].
  by apply bind_children_relax.
Qed.

(** X10.  Data that [bind] accepts are still accepted, with the same dict
    returned, when [strict] is set to [False] in every node of the schema:
    a conversion leaves a value that already has the type as it is. *)
Theorem relaxed_schema_accepts (data : pyvalue) (mapping : gmap string node)
    (out : gmap string pyvalue) :
  bind data mapping = Ret out ->
  bind data (relax <$> mapping) = Ret out.
Proof.
  unfold bind, bind_body. rewrite lookup_fmap.
  destruct (mapping !! "root") as [root|]; simpl; [|discriminate].
  destruct (__bind data root ["root"] ∅) as [out1 [e|]] eqn:Hb; [discriminate|].
  intros [= <-]. by rewrite (__bind_relax root data ["root"] ∅ out1 Hb).
Qed.

Lemma relaxed_schema_accepts_witness :
  bind docstring_data (relax <$> docstring_mapping) =
    Ret (<["age" := VInt 78]> (<["name" := VStr "John Doe"]> ∅)).
Proof.
  apply (relaxed_schema_accepts docstring_data docstring_mapping).
  reflexivity.
Defined.

(** ** A child that is present *)

(** X11.  In a dict node, a child whose key is in the dict, reached after
    the children before it were bound without error, is bound with the path
    of the node followed by the keys of all the children before it and its
    own key.  If that fails the call ends with the child's exception and
    the children after it are not visited; otherwise the loop goes on with
    them.  Whether the child is optional plays no part. *)
Theorem present_child (value v : pyvalue) (mapping : node) (path : list string)
    (out out1 : gmap string pyvalue) (d : list (atom * pyvalue))
    (pre post : list (string * node)) (key : string) (child : node) :
  n_type mapping = Some Tdict ->
  type_resolution Kdict Tdict (default true (n_strict mapping)) value path = Ret d ->
  n_children mapping = Some (pre ++ (key, child) :: post) ->
  dict_lookup (AStr key) d = Some v ->
  bind_children __bind d pre path (write_destination mapping (VDict d) out) =
    (out1, None) ->
  let path' := (path ++ map fst pre) ++ [key] in
  __bind value mapping path out =
    match __bind v child path' out1 with
    | (out2, None) => bind_children __bind d post path' out2
    | (out2, Some e) => (out2, Some e)
    end.
Proof.
  intros Ht Hr Hch Hk Hpre path'.
  rewrite (__bind_dict value mapping path out d Ht Hr), Hch. simpl.
  rewrite bind_children_app, Hpre. simpl. rewrite Hk. reflexivity.
Qed.

Lemma present_child_witness :
  __bind (VDict [ (AStr "a", VInt 1); (AStr "b", VStr "x") ])
    (branch [ ("a", leaf Tint None None None None);
              ("b", leaf Tint None None None None) ])
    ["root"] (∅ : gmap string pyvalue) =
  match __bind (VStr "x") (leaf Tint None None None None) ["root"; "a"; "b"]
          (∅ : gmap string pyvalue) with
  | (out2, None) => bind_children __bind
                      [ (AStr "a", VInt 1); (AStr "b", VStr "x") ] []
                      ["root"; "a"; "b"] out2
  | (out2, Some e) => (out2, Some e)
  end.
Proof.
  apply (present_child (VDict [ (AStr "a", VInt 1); (AStr "b", VStr "x") ])
           (VStr "x")
           (branch [ ("a", leaf Tint None None None None);
                     ("b", leaf Tint None None None None) ])
           ["root"] ∅ ∅ [ (AStr "a", VInt 1); (AStr "b", VStr "x") ]
           [ ("a", leaf Tint None None None None) ] []
           "b" (leaf Tint None None None None)); reflexivity.
Defined.

(** ** Values that a strict node refuses and a converting node takes *)

(** X12.  [True] and [False] are not ints for a strict [int] node, which
    refuses them with the type [bool] as the type found; an [int] node that
    converts takes them as 1 and 0. *)
Theorem bool_on_int_node (b : bool) (mapping : node) (path : list string)
    (out : gmap string pyvalue) :
  n_type mapping = Some Tint ->
  (default true (n_strict mapping) = true ->
   __bind (VBool b) mapping path out =
     (out, Some (InvalidTypeException path Tbool Tint (VBool b) true)))
  /\ (default true (n_strict mapping) = false ->
      __bind (VBool b) mapping path out =
        (write_destination mapping (VInt (if b then 1 else 0)) out, None)).
Proof.
  intros Ht. split; intros Hs; rewrite __bind_eq, Ht, Hs; reflexivity.
Qed.

Lemma bool_on_int_node_witness :
  __bind (VBool true) age_strict ["root"] (∅ : gmap string pyvalue) =
    (∅, Some (InvalidTypeException ["root"] Tbool Tint (VBool true) true))
  /\ __bind (VBool true) int_nonstrict ["root"] (∅ : gmap string pyvalue) =
       (write_destination int_nonstrict (VInt 1) ∅, None).
Proof.
  split.
  - apply (bool_on_int_node true age_strict ["root"] ∅); reflexivity.
  - apply (bool_on_int_node true int_nonstrict ["root"] ∅); reflexivity.
Defined.



(** ** Printing an exception *)



(** The text printed for a missing key, on an example. *)
Example printing_missing_key :
  exn_str (RequiredValueMissingException_new ["root"; "a"; "b"] "b") =
    Printed "RequiredValueMissingException(['root', 'a', 'b'], 'b')".
Proof. vm_compute; reflexivity. Qed.
